(** * A DNS filter: rule parser, domain trie, schedules and the decision engine

    Shallow embedding of the filtering core of the adblocker:
    - [parser/rule.go] and the rule-line parser ([ParseRule], [parseModifiers]);
    - [engine/trie.go] ([Insert], [SearchTrace]);
    - [engine/schedule.go] ([IsActive]) and [engine/user.go] ([Match]);
    - [engine/engine.go] ([Resolve], [getActiveGroupIDs], [checkModifiers],
      [ReloadRules]).

    Go strings are byte strings and are modelled by [string]; Go [int] values
    are modelled by [Z] (no arithmetic of the modelled code can overflow on the
    inputs it is given: minutes of a day and small indices).  Rules are heap
    objects referred to by pointer in the program ([*parser.Rule]); the engine
    state therefore carries a store of rules and the trie, the regex bucket and
    the file cache hold locations into that store. *)

From Stdlib Require Import ZArith Ascii String List Bool Lia.
From stdpp Require Import base option list gmap strings.

Set Warnings "-register-all".
Local Open Scope string_scope.
Local Open Scope list_scope.
Local Open Scope Z_scope.

(** ** The functions of Go's [strings] package used by the program *)

Module GoStrings.

Fixpoint HasPrefix (s prefix : string) {struct prefix} : bool :=
  match prefix with
  | EmptyString => true
  | String a prefix' =>
      match s with
      | EmptyString => false
      | String b s' => if Ascii.eqb a b then HasPrefix s' prefix' else false
      end
  end.

Fixpoint sdrop (n : nat) (s : string) : string :=
  match n, s with
  | O, _ => s
  | S n', String _ s' => sdrop n' s'
  | S _, EmptyString => EmptyString
  end.

Fixpoint stake (n : nat) (s : string) : string :=
  match n, s with
  | S n', String a s' => String a (stake n' s')
  | _, _ => EmptyString
  end.

(** [len(s) >= len(suffix) && s[len(s)-len(suffix):] == suffix] *)
Definition HasSuffix (s suffix : string) : bool :=
  (String.length suffix <=? String.length s)%nat
  && String.eqb (sdrop (String.length s - String.length suffix) s) suffix.

Definition TrimPrefix (s prefix : string) : string :=
  if HasPrefix s prefix then sdrop (String.length prefix) s else s.

Definition TrimSuffix (s suffix : string) : string :=
  if HasSuffix s suffix
  then stake (String.length s - String.length suffix) s
  else s.

(** [strings.Split(s, sep)] for a one-byte separator, the only way the
    program calls it (["."], ["|"], [","], ["-"], [":"]).  The result is
    never empty: [Split("", sep)] is [[""]]. *)
Fixpoint Split (s : string) (sep : ascii) : list string :=
  match s with
  | EmptyString => [EmptyString]
  | String c s' =>
      if Ascii.eqb c sep then EmptyString :: Split s' sep
      else match Split s' sep with
           | [] => [String c EmptyString]
           | p :: ps => String c p :: ps
           end
  end.

(** [strings.SplitN(s, sep, 2)] for a one-byte separator: cut at the first
    separator when there is one. *)
Fixpoint SplitN2 (s : string) (sep : ascii) : list string :=
  match s with
  | EmptyString => [EmptyString]
  | String c s' =>
      if Ascii.eqb c sep then [EmptyString; s']
      else match SplitN2 s' sep with
           | [] => [String c EmptyString]
           | p :: ps => String c p :: ps
           end
  end.

(** [strings.LastIndex(s, sep)] for a one-byte separator; -1 when absent. *)
Fixpoint LastIndex (s : string) (sep : ascii) : Z :=
  match s with
  | EmptyString => -1
  | String c s' =>
      let i := LastIndex s' sep in
      if 0 <=? i then i + 1
      else if Ascii.eqb c sep then 0 else -1
  end.

(** [strings.Contains(s, sep)] for a one-byte [sep]. *)
Fixpoint Contains (s : string) (sep : ascii) : bool :=
  match s with
  | EmptyString => false
  | String c s' => Ascii.eqb c sep || Contains s' sep
  end.

(** [strings.ReplaceAll(s, old, new)] for a non-empty [old]: leftmost,
    non-overlapping occurrences.  [skip] counts the bytes of an occurrence
    of [old] that are still to be passed over. *)
Fixpoint replaceFrom (old new : string) (skip : nat) (s : string) : string :=
  match s with
  | EmptyString => EmptyString
  | String c s' =>
      match skip with
      | S k => replaceFrom old new k s'
      | O =>
          if HasPrefix s old
          then new +:+ replaceFrom old new (String.length old - 1) s'
          else String c (replaceFrom old new O s')
      end
  end.

Definition ReplaceAll (s old new : string) : string := replaceFrom old new O s.

(** *** White space

    [unicode.IsSpace] on the UTF-8 encoding: the byte length of the white
    space rune at the head of [s], 0 when [s] does not start with one.  The
    white space runes are U+0009..U+000D, U+0020, U+0085, U+00A0, U+1680,
    U+2000..U+200A, U+2028, U+2029, U+202F, U+205F and U+3000. *)
Definition byteOf (c : ascii) : N := N_of_ascii c.

Definition spaceLen (s : string) : nat :=
  match s with
  | EmptyString => 0
  | String c0 s1 =>
      let b0 := byteOf c0 in
      if ((9 <=? b0) && (b0 <=? 13) || (b0 =? 32))%N then 1
      else match s1 with
      | EmptyString => 0
      | String c1 s2 =>
          let b1 := byteOf c1 in
          if ((b0 =? 194) && ((b1 =? 133) || (b1 =? 160)))%N then 2
          else match s2 with
          | EmptyString => 0
          | String c2 _ =>
              let b2 := byteOf c2 in
              if ((b0 =? 225) && (b1 =? 154) && (b2 =? 128))%N then 3
              else if ((b0 =? 226) && (b1 =? 128)
                       && ((128 <=? b2) && (b2 <=? 138)
                           || (b2 =? 168) || (b2 =? 169) || (b2 =? 175)))%N then 3
              else if ((b0 =? 226) && (b1 =? 129) && (b2 =? 159))%N then 3
              else if ((b0 =? 227) && (b1 =? 128) && (b2 =? 128))%N then 3
              else 0
          end
      end
  end%nat.

(** [s[skip:]] is a sequence of white space runes. *)
Fixpoint allSpaceFrom (skip : nat) (s : string) : bool :=
  match s with
  | EmptyString => true
  | String _ s' =>
      match skip with
      | S k => allSpaceFrom k s'
      | O => match spaceLen s with
             | O => false
             | S k => allSpaceFrom k s'
             end
      end
  end.

Fixpoint trimLeftFrom (skip : nat) (s : string) : string :=
  match s with
  | EmptyString => EmptyString
  | String _ s' =>
      match skip with
      | S k => trimLeftFrom k s'
      | O => match spaceLen s with
             | O => s
             | S k => trimLeftFrom k s'
             end
      end
  end.

Fixpoint trimRight (s : string) : string :=
  match s with
  | EmptyString => EmptyString
  | String c s' => if allSpaceFrom O s then EmptyString else String c (trimRight s')
  end.

(** [strings.TrimSpace]: leading and trailing white space runes removed. *)
Definition TrimSpace (s : string) : string := trimRight (trimLeftFrom O s).

(** [strings.Fields]: the maximal runs of bytes that are not white space.
    The boolean tells whether the first field of the result starts at the
    head of [s]. *)
Fixpoint fieldsFrom (skip : nat) (s : string) : bool * list string :=
  match s with
  | EmptyString => (false, [])
  | String c s' =>
      match skip with
      | S k => (false, snd (fieldsFrom k s'))
      | O =>
          match spaceLen s with
          | S k => (false, snd (fieldsFrom k s'))
          | O =>
              match fieldsFrom O s' with
              | (true, f :: fs) => (true, String c f :: fs)
              | (_, fs) => (true, String c EmptyString :: fs)
              end
          end
      end
  end.

Definition Fields (s : string) : list string := snd (fieldsFrom O s).

(** [regexp.QuoteMeta]: a backslash before each of [\.+*?()|[]{}^$]. *)
Definition special (c : ascii) : bool :=
  Contains "\.+*?()|[]{}^$" c.

Fixpoint QuoteMeta (s : string) : string :=
  match s with
  | EmptyString => EmptyString
  | String c s' =>
      if special c then String "\" (String c (QuoteMeta s'))
      else String c (QuoteMeta s')
  end.

(** A Go slice expression [s[lo:hi]] on indices known to be in range. *)
Definition slice (s : string) (lo hi : Z) : string :=
  stake (Z.to_nat (hi - lo)) (sdrop (Z.to_nat lo) s).

Definition len (s : string) : Z := Z.of_nat (String.length s).

End GoStrings.

Import GoStrings.

(** ** The libraries the program calls

    [net/netip], [regexp], [strings.EqualFold] and the table
    [dns.TypeToString] of the DNS library are not part of the repository.
    The program is modelled over any implementation of them. *)

Class GoLib := {
  (** [netip.Addr], compared with [==], and its zero value *)
  Addr : Type;
  Addr_eq_dec :: EqDecision Addr;
  Addr_countable :: Countable Addr;
  zeroAddr : Addr;
  ParseAddr : string -> option Addr;
  AddrString : Addr -> string;
  IsLoopback : Addr -> bool;
  IsUnspecified : Addr -> bool;
  (** [netip.Prefix] *)
  Prefix : Type;
  ParsePrefix : string -> option Prefix;
  PrefixContains : Prefix -> Addr -> bool;
  (** [regexp.Regexp] *)
  Regexp : Type;
  Compile : string -> option Regexp;
  MatchString : Regexp -> string -> bool;
  (** [dns.TypeToString[qType]], the empty string for a missing key *)
  TypeToString : Z -> string;
  EqualFold : string -> string -> bool;
  ToLower : string -> string;
}.

(** What a Go call yields: a value, an [error], or a run-time panic. *)
Inductive outcome (A : Type) : Type :=
| Ok (a : A)
| Err (msg : string)
| Panic.
Arguments Ok {A} a.
Arguments Err {A} msg.
Arguments Panic {A}.

(** The monadic bind of [outcome]: an [error] or a panic ends the call. *)
Definition bind {A B : Type} (x : outcome A) (f : A -> outcome B) : outcome B :=
  match x with
  | Ok a => f a
  | Err e => Err e
  | Panic => Panic
  end.

#[global] Instance outcome_bind : MBind outcome := fun A B f x => bind x f.

(** A loop over a slice whose body may return an error. *)
Fixpoint foldM {A B : Type} (f : B -> A -> outcome B) (l : list A) (b : B) : outcome B :=
  match l with
  | [] => Ok b
  | a :: l' => b' ← f b a; foldM f l' b'
  end.

(** ** parser/rule.go and the rule-line parser *)

Inductive RuleType : Set :=
| RuleTypeUnknown
| RuleTypeExact
| RuleTypeDistinguish
| RuleTypeRegex
| RuleTypeGeneric.

#[global] Instance RuleType_eq_dec : EqDecision RuleType.
Proof. solve_decision. Defined.

Record Modifiers : Set := mkModifiers {
  Client : list string;
  DenyAllow : list string;
  DNSType : list string;
  DNSRewrite : string;
  Important : bool;
  BadFilter : bool;
  ContentType : list string;
}.

(** The zero value of [Modifiers]. *)
Definition noModifiers : Modifiers :=
  mkModifiers [] [] [] "" false false [].

Section Parser.
Context `{GoLib}.

Record Rule : Type := mkRule {
  Text : string;
  Pattern : string;
  Type_ : RuleType;
  IsWhitelist : bool;
  RuleModifiers : Modifiers;
  IP : Addr;
  GroupID : Z;
}.

Definition setGroupID (gid : Z) (r : Rule) : Rule :=
  mkRule (Text r) (Pattern r) (Type_ r) (IsWhitelist r) (RuleModifiers r) (IP r) gid.

(** One iteration of the loop of [parseModifiers]: the token [p] is
    [key[=value]]; the key is trimmed, the value is not. *)
Definition parseModifier (m : Modifiers) (p : string) : Modifiers :=
  let kv := SplitN2 p "=" in
  let key := TrimSpace (hd "" kv) in
  let val := match kv with _ :: v :: _ => v | _ => "" end in
  if String.eqb key "client" then
    mkModifiers (Client m ++ [val]) (DenyAllow m) (DNSType m) (DNSRewrite m)
      (Important m) (BadFilter m) (ContentType m)
  else if String.eqb key "denyallow" then
    mkModifiers (Client m) (DenyAllow m ++ [val]) (DNSType m) (DNSRewrite m)
      (Important m) (BadFilter m) (ContentType m)
  else if String.eqb key "dnstype" then
    mkModifiers (Client m) (DenyAllow m) (DNSType m ++ [val]) (DNSRewrite m)
      (Important m) (BadFilter m) (ContentType m)
  else if String.eqb key "dnsrewrite" then
    mkModifiers (Client m) (DenyAllow m) (DNSType m) val
      (Important m) (BadFilter m) (ContentType m)
  else if String.eqb key "important" then
    mkModifiers (Client m) (DenyAllow m) (DNSType m) (DNSRewrite m)
      true (BadFilter m) (ContentType m)
  else if String.eqb key "badfilter" then
    mkModifiers (Client m) (DenyAllow m) (DNSType m) (DNSRewrite m)
      (Important m) true (ContentType m)
  else
    (* "image", "script", "third-party", "xmlhttprequest", "popup",
       "generichide" and every unknown key: ignored *)
    m.

(** [parseModifiers(raw, &m)]: the function has a single [return nil]. *)
Definition parseModifiers (raw : string) (m : Modifiers) : outcome Modifiers :=
  Ok (fold_left parseModifier (Split raw ",") m).

(** Step 4 of [ParseRule]: a pattern with [*] becomes a regular expression. *)
Definition convertWildcard (ty : RuleType) (pattern : string) : RuleType * string :=
  if negb (bool_decide (ty = RuleTypeRegex)) && Contains pattern "*" then
    let escaped := QuoteMeta pattern in
    let regexPattern := ReplaceAll escaped "\*" ".*" in
    if bool_decide (ty = RuleTypeDistinguish)
    then (RuleTypeRegex, "(^|\.)" +:+ regexPattern +:+ "$")
    else (RuleTypeRegex, "^" +:+ regexPattern +:+ "$")
  else (ty, pattern).

(** Step 3 of [ParseRule] on the body [text] (modifiers removed): the
    type, the pattern before clean-up, the address and the modifiers. *)
Definition classify (text : string) (m : Modifiers)
  : outcome (RuleType * string * Addr * Modifiers) :=
  if HasPrefix text "/" && HasSuffix text "/" then
    (* text[1 : len(text)-1] panics on the one-byte body "/" *)
    if len text - 1 <? 1 then Panic
    else Ok (RuleTypeRegex, slice text 1 (len text - 1), zeroAddr, m)
  else if HasPrefix text "||" && HasSuffix text "^" then
    Ok (RuleTypeDistinguish, slice text 2 (len text - 1), zeroAddr, m)
  else if HasPrefix text "||" then
    Ok (RuleTypeDistinguish, sdrop 2 text, zeroAddr, m)
  else
    match Fields text with
    | p0 :: p1 :: _ =>
        match ParseAddr p0 with
        | Some ip =>
            let m' :=
              if negb (IsLoopback ip) && negb (IsUnspecified ip) then
                mkModifiers (Client m) (DenyAllow m) (DNSType m) (AddrString ip)
                  (Important m) (BadFilter m) (ContentType m)
              else m in
            Ok (RuleTypeExact, p1, ip, m')
        | None => Ok (RuleTypeExact, text, zeroAddr, m)
        end
    | _ => Ok (RuleTypeExact, text, zeroAddr, m)
    end.

(** Steps 1 and 2 of [ParseRule] on the trimmed line: the whitelist mark,
    the modifiers, and the body that is left. *)
Definition splitRule (text : string) : outcome (bool * Modifiers * string) :=
  let isWhitelist := HasPrefix text "@@" in
  let text := if isWhitelist then sdrop 2 text else text in
  let idx := LastIndex text "$" in
  if negb (idx =? -1) then
    match parseModifiers (sdrop (Z.to_nat (idx + 1)) text) noModifiers with
    | Ok m => Ok (isWhitelist, m, stake (Z.to_nat idx) text)
    | Err msg => Err ("failed to parse modifiers: " +:+ msg)
    | Panic => Panic
    end
  else Ok (isWhitelist, noModifiers, text).

(** The lines that yield no rule: empty or a comment. *)
Definition isBlank (text : string) : bool :=
  String.eqb text "" || HasPrefix text "!" || HasPrefix text "#".

(** [ParseRule(text)]: [Ok None] is the Go result [(nil, nil)]. *)
Definition ParseRule (line : string) : outcome (option Rule) :=
  let text := TrimSpace line in
  if isBlank text then Ok None
  else
    '(isWhitelist, m, body) ← splitRule text;
    '(ty, pattern, ip, m') ← classify body m;
    let pattern := TrimSuffix pattern "^" in
    let '(ty', pattern') := convertWildcard ty pattern in
    Ok (Some (mkRule text pattern' ty' isWhitelist m' ip 0)).

End Parser.

(** ** config/config.go: the configuration snapshot *)

Module User.
Record t : Set := mk { Name : string; IPs : list string; MACs : list string;
                       UserGroup : string }.
End User.

Module Policy.
Record t : Set := mk { RuleGroup : string; Schedule : string }.
End Policy.

Module UserGroup.
Record t : Set := mk { Name : string; Policies : list Policy.t }.
End UserGroup.

Module Source.
Record t : Set := mk { Name : string; URL : string; Path : string }.
End Source.

Module RuleGroup.
Record t : Set := mk { Name : string; Sources : list Source.t }.
End RuleGroup.

Module ScheduleItem.
Record t : Set := mk { Days : list string; Ranges : list string }.
End ScheduleItem.

Module ScheduleConfig.
Record t : Set := mk { Name : string; Items : list ScheduleItem.t }.
End ScheduleConfig.

Module Config.
Record t : Set := mk {
  Users : list User.t;
  UserGroups : list UserGroup.t;
  RuleGroups : list RuleGroup.t;
  Schedules : list ScheduleConfig.t;
  DefaultsUserGroup : string;
}.
End Config.

(** ** engine/trie.go: the reverse-label trie

    A node's rules are pointers to rule objects; [loc] is a location of the
    rule store. *)

Definition loc : Set := nat.

Inductive TrieNode : Set :=
  mkTrieNode { children : gmap string TrieNode; rules : list loc }.

Definition emptyNode : TrieNode := mkTrieNode ∅ [].

(** [NewDomainTrie()]: the root node. *)
Definition NewDomainTrie : TrieNode := emptyNode.

(** The loop of [Insert] over the labels from the last to the first, then
    the [append] at the node reached. *)
Fixpoint insertPath (path : list string) (rule : loc) (node : TrieNode) : TrieNode :=
  match path with
  | [] => mkTrieNode (children node) (rules node ++ [rule])
  | part :: rest =>
      let child := default emptyNode (children node !! part) in
      mkTrieNode (<[part := insertPath rest rule child]> (children node)) (rules node)
  end.

(** The loop of [SearchTrace]: the rules of every node visited, the walk
    stopping at the first missing edge. *)
Fixpoint searchPath (path : list string) (node : TrieNode) : list loc :=
  match path with
  | [] => []
  | part :: rest =>
      match children node !! part with
      | None => []
      | Some node' => rules node' ++ searchPath rest node'
      end
  end.

Definition SearchTrace (t : TrieNode) (domain : string) : list loc :=
  let domain := TrimSuffix domain "." in
  let parts := Split domain "." in
  searchPath (rev parts) t.

(** ** engine/schedule.go *)

Record TimeRange : Set := mkTimeRange { Start : Z; End_ : Z }.

Record Schedule : Set := mkSchedule {
  ScheduleName : string;
  WeekMap : gmap Z (list TimeRange);
}.

Record ScheduleMatcher : Set := mkScheduleMatcher {
  schedules : gmap string Schedule;
}.

(** What the program reads of a [time.Time]: the weekday (Sunday is 0), the
    hour (0 to 23) and the minute (0 to 59), in the local time zone. *)
Record Time : Set := mkTime { Weekday : Z; Hour : Z; Minute : Z }.

Definition inRange (currentMins : Z) (r : TimeRange) : bool :=
  (Start r <=? currentMins) && (currentMins <=? End_ r).

Definition IsActive (sm : ScheduleMatcher) (scheduleName : string) (t : Time) : bool :=
  if String.eqb scheduleName "" then false
  else
    match schedules sm !! scheduleName with
    | None => false
    | Some sch =>
        let ranges := default [] (WeekMap sch !! Weekday t) in
        if (length ranges =? 0)%nat then false
        else
          let currentMins := Hour t * 60 + Minute t in
          existsb (inRange currentMins) ranges
    end.

(** [strconv.Atoi]: an optional sign and at least one decimal digit, the
    value within the range of a 64-bit [int]. *)
Definition isDigit (c : ascii) : bool :=
  (48 <=? byteOf c)%N && (byteOf c <=? 57)%N.

Fixpoint digitsValue (acc : Z) (s : string) : option Z :=
  match s with
  | EmptyString => Some acc
  | String c s' =>
      if isDigit c then digitsValue (acc * 10 + (Z.of_N (byteOf c) - 48)) s'
      else None
  end.

Definition Atoi (s : string) : outcome Z :=
  let '(neg, body) :=
    match s with
    | String c s' =>
        if Ascii.eqb c "-" then (true, s')
        else if Ascii.eqb c "+" then (false, s') else (false, s)
    | EmptyString => (false, s)
    end in
  match body with
  | EmptyString => Err "invalid syntax"
  | _ =>
      match digitsValue 0 body with
      | None => Err "invalid syntax"
      | Some v =>
          let v := if neg then - v else v in
          if (- 2 ^ 63 <=? v) && (v <=? 2 ^ 63 - 1) then Ok v
          else Err "value out of range"
      end
  end.

(** Arithmetic on a 64-bit [int] wraps around. *)
Definition wrap64 (z : Z) : Z := (z + 2 ^ 63) mod 2 ^ 64 - 2 ^ 63.

Definition parseMinutes (hhmm : string) : outcome Z :=
  match Split hhmm ":" with
  | [hs; ms] =>
      match Atoi hs with
      | Ok h =>
          match Atoi ms with
          | Ok m => Ok (wrap64 (h * 60 + m))
          | Err e => Err e
          | Panic => Panic
          end
      | Err e => Err e
      | Panic => Panic
      end
  | _ => Err "invalid time format"
  end.

Definition parseTimeRange (s : string) : outcome TimeRange :=
  match Split s "-" with
  | [a; b] =>
      match parseMinutes a with
      | Ok start =>
          match parseMinutes b with
          | Ok end_ => Ok (mkTimeRange start end_)
          | Err e => Err e
          | Panic => Panic
          end
      | Err e => Err e
      | Panic => Panic
      end
  | _ => Err "format must be HH:MM-HH:MM"
  end.

Section Schedules.
Context `{GoLib}.

Definition parseWeekday (s : string) : outcome Z :=
  let s := ToLower s in
  if String.eqb s "sun" || String.eqb s "sunday" then Ok 0
  else if String.eqb s "mon" || String.eqb s "monday" then Ok 1
  else if String.eqb s "tue" || String.eqb s "tuesday" then Ok 2
  else if String.eqb s "wed" || String.eqb s "wednesday" then Ok 3
  else if String.eqb s "thu" || String.eqb s "thursday" then Ok 4
  else if String.eqb s "fri" || String.eqb s "friday" then Ok 5
  else if String.eqb s "sat" || String.eqb s "saturday" then Ok 6
  else Err "unknown day".

(** [sch.WeekMap[d] = append(sch.WeekMap[d], currentRanges...)] *)
Definition appendRanges (currentRanges : list TimeRange)
    (wm : gmap Z (list TimeRange)) (d : Z) : gmap Z (list TimeRange) :=
  <[d := default [] (wm !! d) ++ currentRanges]> wm.

Definition addItem (wm : gmap Z (list TimeRange)) (item : ScheduleItem.t)
  : outcome (gmap Z (list TimeRange)) :=
  currentRanges ←
    foldM (fun acc rStr => tr ← parseTimeRange rStr; Ok (acc ++ [tr]))
          (ScheduleItem.Ranges item) [];
  if (length (ScheduleItem.Days item) =? 0)%nat then
    Ok (fold_left (appendRanges currentRanges) [0; 1; 2; 3; 4; 5; 6] wm)
  else
    foldM (fun wm dayStr => wd ← parseWeekday dayStr;
                            Ok (appendRanges currentRanges wm wd))
          (ScheduleItem.Days item) wm.

Definition NewScheduleMatcher (cfg : Config.t) : outcome ScheduleMatcher :=
  m ← foldM (fun (m : gmap string Schedule) s =>
                wm ← foldM addItem (ScheduleConfig.Items s) ∅;
                Ok (<[ScheduleConfig.Name s := mkSchedule (ScheduleConfig.Name s) wm]> m))
             (Config.Schedules cfg) ∅;
  Ok (mkScheduleMatcher m).

End Schedules.

(** ** engine/user.go *)

Section Users.
Context `{GoLib}.

Record UserMatcher : Type := mkUserMatcher {
  byIP : gmap Addr User.t;
  byMAC : gmap string User.t;
  cidrs : list (Prefix * User.t);
  defaultUserGroup : string;
}.

Definition indexIP (user : User.t) (um : UserMatcher) (ipStr : string)
  : outcome UserMatcher :=
  match ParsePrefix ipStr with
  | Some prefix =>
      Ok (mkUserMatcher (byIP um) (byMAC um) (cidrs um ++ [(prefix, user)])
            (defaultUserGroup um))
  | None =>
      match ParseAddr ipStr with
      | Some addr =>
          Ok (mkUserMatcher (<[addr := user]> (byIP um)) (byMAC um) (cidrs um)
                (defaultUserGroup um))
      | None => Err ("invalid IP/CIDR '" +:+ ipStr +:+ "' for user '"
                     +:+ User.Name user +:+ "'")
      end
  end.

Definition indexMAC (user : User.t) (um : UserMatcher) (mac : string) : UserMatcher :=
  mkUserMatcher (byIP um) (<[mac := user]> (byMAC um)) (cidrs um)
    (defaultUserGroup um).

Definition NewUserMatcher (cfg : Config.t) : outcome UserMatcher :=
  foldM (fun um user =>
           um' ← foldM (indexIP user) (User.IPs user) um;
           Ok (fold_left (indexMAC user) (User.MACs user) um'))
        (Config.Users cfg)
        (mkUserMatcher ∅ ∅ [] (Config.DefaultsUserGroup cfg)).

(** [Match(ip, mac)]: MAC, then exact IP, then the first CIDR that
    contains the address; [None] is the Go [nil]. *)
Definition Match (um : UserMatcher) (ip : Addr) (mac : string) : option User.t :=
  match (if String.eqb mac "" then None else byMAC um !! mac) with
  | Some u => Some u
  | None =>
      match byIP um !! ip with
      | Some u => Some u
      | None =>
          match List.find (fun mapping => PrefixContains (fst mapping) ip) (cidrs um) with
          | Some mapping => Some (snd mapping)
          | None => None
          end
      end
  end.

End Users.

(** ** engine/engine.go *)

Module ResolveResult.
Record t : Set := mk {
  Blocked : bool;
  Reason : string;
  Rule : option loc;        (* the rule that caused the decision *)
  User : option User.t;
  DNSRewrite : string;      (* rewrite destination (IP or CNAME) *)
}.
End ResolveResult.

Section Engine.
Context `{GoLib}.

Record RegexRule : Type := mkRegexRule { RegexRule_Rule : loc; Regex : Regexp }.

(** The engine.  [store] holds the rule objects allocated so far; the
    trie, the regex bucket and the file cache point into it. *)
Record Engine : Type := mkEngine {
  cfg : Config.t;
  userMatcher : UserMatcher;
  scheduleMatcher : ScheduleMatcher;
  store : list Rule;
  trie : TrieNode;
  regexRules : list RegexRule;
  fileRuleCache : gmap string (list loc);
  groupIDs : gmap string Z;
  defaultUserGroupName : string;
}.

Definition zeroRule : Rule := mkRule "" "" RuleTypeUnknown false noModifiers zeroAddr 0.

(** Reading through a rule pointer.  Every location the index holds is
    allocated. *)
Definition rule (st : list Rule) (r : loc) : Rule := default zeroRule (st !! r).

(** [e.groupIDs[rg.Name] = i + 1], for [i, rg := range cfg.RuleGroups] *)
Fixpoint assignGroupIDs (i : Z) (rgs : list RuleGroup.t) (m : gmap string Z)
  : gmap string Z :=
  match rgs with
  | [] => m
  | rg :: rgs' => assignGroupIDs (i + 1) rgs' (<[RuleGroup.Name rg := i + 1]> m)
  end.

Definition NewEngine (c : Config.t) : outcome Engine :=
  um ← NewUserMatcher c;
  sm ← NewScheduleMatcher c;
  Ok (mkEngine c um sm [] NewDomainTrie [] ∅
        (assignGroupIDs 0 (Config.RuleGroups c) ∅)
        (Config.DefaultsUserGroup c)).

Definition GetUser (e : Engine) (clientIP : Addr) (clientMAC : string) : option User.t :=
  Match (userMatcher e) clientIP clientMAC.

(** [t.Insert(rule)]: the pattern is read through the pointer. *)
Definition Insert (st : list Rule) (t : TrieNode) (r : loc) : TrieNode :=
  let parts := Split (Pattern (rule st r)) "." in
  insertPath (rev parts) r t.

(** *** getActiveGroupIDs *)

Definition groupID (e : Engine) (name : string) : Z := default 0 (groupIDs e !! name).

(** The body of the loop over the policies; [activeIDs] also plays the
    part of the [seen] set. *)
Definition addPolicy (e : Engine) (now : Time) (activeIDs : list Z) (policy : Policy.t)
  : list Z :=
  let isActive := negb (IsActive (scheduleMatcher e) (Policy.Schedule policy) now) in
  if isActive then
    let gid := groupID e (Policy.RuleGroup policy) in
    if negb (gid =? 0) && negb (existsb (Z.eqb gid) activeIDs)
    then activeIDs ++ [gid]
    else activeIDs
  else activeIDs.

Definition getActiveGroupIDs (e : Engine) (userGroupName : string) (now : Time) : list Z :=
  match List.find (fun ug => String.eqb (UserGroup.Name ug) userGroupName)
             (Config.UserGroups (cfg e)) with
  | None => []
  | Some ug => fold_left (addPolicy e now) (UserGroup.Policies ug) []
  end.

(** *** checkModifiers *)

(** [targets = append(targets, strings.Split(raw, "|")...)] for each value *)
Definition flattenValues (raws : list string) : list string :=
  concat (map (fun raw => Split raw "|") raws).

(** [strings.HasPrefix(strings.TrimSpace(targets[0]), "~")] *)
Definition isExclusionMode (targets : list string) : bool :=
  HasPrefix (TrimSpace (hd "" targets)) "~".

(** The chain of tests on one target of [$client]. *)
Definition clientIsMatch (user : option User.t) (clientIP : Addr) (target : string) : bool :=
  if match user with
     | Some u => String.eqb target (User.Name u)
     | None => false
     end
  then true
  else
    match ParseAddr target with
    | Some ip => bool_decide (ip = clientIP)
    | None =>
        match ParsePrefix target with
        | Some prefix => PrefixContains prefix clientIP
        | None => String.eqb target (AddrString clientIP)
        end
    end.

(** The loop over the targets: [p = TrimSpace(p)], [target = TrimPrefix(p, "~")],
    [matched] is set at the first target that passes [test]. *)
Definition anyTarget (test : string -> bool) (targets : list string) : bool :=
  existsb (fun p => test (TrimPrefix (TrimSpace p) "~")) targets.

Definition checkClient (m : Modifiers) (user : option User.t) (clientIP : Addr) : bool :=
  if (0 <? length (Client m))%nat then
    let targets := flattenValues (Client m) in
    if (length targets =? 0)%nat then false
    else
      let matched := anyTarget (clientIsMatch user clientIP) targets in
      if isExclusionMode targets then negb matched else matched
  else true.

Definition checkDNSType (m : Modifiers) (qType : Z) : bool :=
  if (0 <? length (DNSType m))%nat then
    let typeName := TypeToString qType in
    let targets := flattenValues (DNSType m) in
    if (length targets =? 0)%nat then false
    else
      let matched := anyTarget (fun target => EqualFold target typeName) targets in
      if isExclusionMode targets then negb matched else matched
  else true.

Definition checkDenyAllow (m : Modifiers) (qName : string) : bool :=
  if (0 <? length (DenyAllow m))%nat then
    let domain := TrimSuffix qName "." in
    let isExcluded :=
      existsb (fun raw => existsb (fun da => String.eqb domain (TrimSpace da))
                                  (Split raw "|"))
              (DenyAllow m) in
    negb isExcluded
  else true.

(** [checkModifiers(r, user, qType, clientIP, qName)]: the four blocks in
    the order of the source, each returning [false] when it rejects. *)
Definition checkModifiers (r : Rule) (user : option User.t) (qType : Z)
    (clientIP : Addr) (qName : string) : bool :=
  let m := RuleModifiers r in
  if BadFilter m then false
  else if negb (checkClient m user clientIP) then false
  else if negb (checkDNSType m qType) then false
  else if negb (checkDenyAllow m qName) then false
  else true.

(** *** Resolve *)

Record Slots : Set := mkSlots {
  blockRule : option loc;
  whitelistRule : option loc;
  importantBlockRule : option loc;
  importantWhitelistRule : option loc;
}.

Definition noSlots : Slots := mkSlots None None None None.

(** The three [continue] tests of the inner loop: group, exact match,
    modifiers. *)
Definition applicable (user : option User.t) (qName : string) (qType : Z)
    (clientIP : Addr) (gid : Z) (r : Rule) : bool :=
  if negb (GroupID r =? gid) then false
  else if bool_decide (Type_ r = RuleTypeExact)
          && negb (String.eqb (Pattern r) (TrimSuffix qName ".")) then false
  else checkModifiers r user qType clientIP qName.

(** The assignments at the end of the inner loop. *)
Definition place (s : Slots) (l : loc) (r : Rule) : Slots :=
  if IsWhitelist r then
    if Important (RuleModifiers r)
    then mkSlots (blockRule s) (whitelistRule s) (importantBlockRule s) (Some l)
    else mkSlots (blockRule s) (Some l) (importantBlockRule s) (importantWhitelistRule s)
  else
    if Important (RuleModifiers r)
    then mkSlots (blockRule s) (whitelistRule s) (Some l) (importantWhitelistRule s)
    else mkSlots (Some l) (whitelistRule s) (importantBlockRule s) (importantWhitelistRule s).

(** The inner loop [for _, r := range allMatches] for the group [gid]. *)
Definition scanGroup (st : list Rule) (user : option User.t) (qName : string)
    (qType : Z) (clientIP : Addr) (gid : Z) (allMatches : list loc) : Slots :=
  fold_left
    (fun s l =>
       if applicable user qName qType clientIP gid (rule st l)
       then place s l (rule st l) else s)
    allMatches noSlots.

(** The decision of one group, [None] when the group decides nothing. *)
Definition decideGroup (st : list Rule) (user : option User.t) (s : Slots)
  : option ResolveResult.t :=
  match importantWhitelistRule s with
  | Some l => Some (ResolveResult.mk false "Important Whitelisted" (Some l) user "")
  | None =>
  match importantBlockRule s with
  | Some l => Some (ResolveResult.mk true "Important Blocked" (Some l) user "")
  | None =>
  match whitelistRule s with
  | Some l => Some (ResolveResult.mk false "Whitelisted" (Some l) user "")
  | None =>
  match blockRule s with
  | Some l =>
      if negb (String.eqb (DNSRewrite (RuleModifiers (rule st l))) "")
      then Some (ResolveResult.mk true "Rewrite" (Some l) user
                   (DNSRewrite (RuleModifiers (rule st l))))
      else Some (ResolveResult.mk true "Blocked" (Some l) user "")
  | None => None
  end end end end.

(** The outer loop [for _, gid := range activeGroupIDs]. *)
Fixpoint resolveGroups (st : list Rule) (user : option User.t) (qName : string)
    (qType : Z) (clientIP : Addr) (allMatches : list loc) (gids : list Z)
  : ResolveResult.t :=
  match gids with
  | [] => ResolveResult.mk false "Not found" None user ""
  | gid :: gids' =>
      match decideGroup st user
              (scanGroup st user qName qType clientIP gid allMatches) with
      | Some res => res
      | None => resolveGroups st user qName qType clientIP allMatches gids'
      end
  end.

(** Step 4 of [Resolve]: the rules of the trie walk, then those of the
    regex rules that match the raw query name. *)
Definition allMatches (e : Engine) (qName : string) : list loc :=
  SearchTrace (trie e) qName
  ++ map RegexRule_Rule (List.filter (fun rr => MatchString (Regex rr) qName) (regexRules e)).

Definition userGroupNameOf (e : Engine) (user : option User.t) : string :=
  match user with
  | Some u => User.UserGroup u
  | None => defaultUserGroupName e
  end.

(** [Resolve(qName, qType, clientIP, clientMAC)]; [now] is the value of
    [time.Now()] read by [getActiveGroupIDs]. *)
Definition Resolve (e : Engine) (now : Time) (qName : string) (qType : Z)
    (clientIP : Addr) (clientMAC : string) : ResolveResult.t :=
  let user := Match (userMatcher e) clientIP clientMAC in
  let userGroupName := userGroupNameOf e user in
  let activeGroupIDs := getActiveGroupIDs e userGroupName now in
  if (length activeGroupIDs =? 0)%nat then
    ResolveResult.mk false "No active rules" None user ""
  else
    resolveGroups (store e) user qName qType clientIP (allMatches e qName)
      activeGroupIDs.

(** *** ReloadRules

    The loader reads rule lines from a path or a URL.  What the file
    system and the network hold is a parameter: the lines found at each
    path and at each URL (a missing key is a source that fails to load).
    The on-disk cache of URL sources is the loader's own and is not part
    of the model. *)
Record Loader : Set := mkLoader {
  filesAt : gmap string (list string);
  linesAt : gmap string (list string);
}.

(** The scanning loops of the loader: a line that fails to parse or yields
    no rule is skipped. *)
Definition parseLines (lines : list string) : outcome (list Rule) :=
  foldM (fun rules line =>
           match ParseRule line with
           | Ok (Some r) => Ok (rules ++ [r])
           | Ok None => Ok rules
           | Err _ => Ok rules
           | Panic => Panic
           end)
        lines [].

Definition LoadFromPath (l : Loader) (path : string) : outcome (list Rule) :=
  match filesAt l !! path with
  | Some lines => parseLines lines
  | None => Err "open: no such file"
  end.

Definition LoadFromURLWithCache (l : Loader) (url : string) : outcome (list Rule) :=
  match linesAt l !! url with
  | Some lines => parseLines lines
  | None => Err "fetch failed"
  end.

(** The rules a loader returns are new objects: they are appended to the
    store, and the caller gets their locations. *)
Definition alloc (st : list Rule) (rs : list Rule) : list Rule * list loc :=
  (st ++ rs, seq (length st) (length rs)).

(** A reload in flight: the engine as the queries see it, and the trie and
    regex bucket under construction. *)
Record Reloading : Type := mkReloading {
  eng : Engine;
  newTrie : TrieNode;
  newRegexRules : list RegexRule;
}.

Definition withStore (e : Engine) (st : list Rule) : Engine :=
  mkEngine (cfg e) (userMatcher e) (scheduleMatcher e) st (trie e) (regexRules e)
    (fileRuleCache e) (groupIDs e) (defaultUserGroupName e).

Definition withCache (e : Engine) (c : gmap string (list loc)) : Engine :=
  mkEngine (cfg e) (userMatcher e) (scheduleMatcher e) (store e) (trie e)
    (regexRules e) c (groupIDs e) (defaultUserGroupName e).

Definition withIndex (e : Engine) (t : TrieNode) (rs : list RegexRule) : Engine :=
  mkEngine (cfg e) (userMatcher e) (scheduleMatcher e) (store e) t rs
    (fileRuleCache e) (groupIDs e) (defaultUserGroupName e).

(** The body of the insertion loop of a source: [r.GroupID = gid] is a
    write through the pointer; then the rule goes to the new trie or, when
    its pattern compiles, to the new regex bucket. *)
Definition insertRule (gid : Z) (s : Reloading) (r : loc) : Reloading :=
  let st := alter (setGroupID gid) r (store (eng s)) in
  let e := withStore (eng s) st in
  match Type_ (rule st r) with
  | RuleTypeExact | RuleTypeDistinguish =>
      mkReloading e (Insert st (newTrie s) r) (newRegexRules s)
  | RuleTypeRegex =>
      match Compile (Pattern (rule st r)) with
      | Some re => mkReloading e (newTrie s) (newRegexRules s ++ [mkRegexRule r re])
      | None => mkReloading e (newTrie s) (newRegexRules s)
      end
  | _ => mkReloading e (newTrie s) (newRegexRules s)
  end.

(** The goroutine started for the source [src] of the group [gid], from
    its first statement to its last. *)
Definition runSource (l : Loader) (s : Reloading) (task : Source.t * Z)
  : outcome Reloading :=
  let '(src, gid) := task in
  let e := eng s in
  let loaded : outcome (option (Engine * list loc)) :=
    if negb (String.eqb (Source.Path src) "") then
      match fileRuleCache e !! Source.Path src with
      | Some cached => Ok (Some (e, cached))
      | None =>
          match LoadFromPath l (Source.Path src) with
          | Ok rs =>
              let '(st, ls) := alloc (store e) rs in
              Ok (Some (withCache (withStore e st)
                          (<[Source.Path src := ls]> (fileRuleCache e)), ls))
          | Err _ => Ok None
          | Panic => Panic
          end
      end
    else if negb (String.eqb (Source.URL src) "") then
      match LoadFromURLWithCache l (Source.URL src) with
      | Ok rs =>
          let '(st, ls) := alloc (store e) rs in Ok (Some (withStore e st, ls))
      | Err _ => Ok None
      | Panic => Panic
      end
    else Ok (Some (e, [])) in
  r ← loaded;
  match r with
  | None => Ok s     (* the failure is logged and the goroutine returns *)
  | Some (e', ls) =>
      Ok (fold_left (insertRule gid) ls
            (mkReloading e' (newTrie s) (newRegexRules s)))
  end.

(** One goroutine per source of each rule group, in the order of the
    configuration. *)
Definition tasks (e : Engine) : list (Source.t * Z) :=
  flat_map (fun rg => map (fun src => (src, groupID e (RuleGroup.Name rg)))
                          (RuleGroup.Sources rg))
           (Config.RuleGroups (cfg e)).

Definition startReload (e : Engine) : Reloading := mkReloading e NewDomainTrie [].

(** The swap under the write lock. *)
Definition swap (s : Reloading) : Engine :=
  withIndex (eng s) (newTrie s) (newRegexRules s).

(** [ReloadRules(loader)] when the goroutines run one after the other in
    the order they were started. *)
Definition ReloadRules (e : Engine) (l : Loader) : outcome Engine :=
  s ← foldM (runSource l) (tasks e) (startReload e);
  Ok (swap s).

(** [ReloadRules] with its goroutines scheduled in any order.  A state is
    the reload in flight and the goroutines that have not run yet; a step
    runs one of them.  Between two steps a query may be served from
    [eng]. *)
Inductive reloadStep (l : Loader)
  : Reloading * list (Source.t * Z) -> Reloading * list (Source.t * Z) -> Prop :=
| reloadStep_run s s' before task after :
    runSource l s task = Ok s' ->
    reloadStep l (s, before ++ task :: after) (s', before ++ after).

Inductive reloadSteps (l : Loader)
  : Reloading * list (Source.t * Z) -> Reloading * list (Source.t * Z) -> Prop :=
| reloadSteps_refl x : reloadSteps l x x
| reloadSteps_step x y z :
    reloadStep l x y -> reloadSteps l y z -> reloadSteps l x z.

End Engine.

(** ** An implementation of the libraries, for running the model

    IPv4 only: an address is its 32-bit value ([None], like a value that
    does not fit 32 bits, is the zero [Addr], printed ["invalid IP"]); an
    IPv6 literal is not parsed.  No regular
    expression compiles, so that regex rules are dropped at load, as they
    are when [regexp.Compile] fails.  Letter case is ASCII. *)

Module IPv4.

Fixpoint allDigits (s : string) : bool :=
  match s with
  | EmptyString => true
  | String c s' => isDigit c && allDigits s'
  end.

(** A field of a dotted quad: decimal digits, no leading zero, at most 255. *)
Definition parseOctet (s : string) : option N :=
  match s with
  | EmptyString => None
  | String c s' =>
      if negb (allDigits s) then None
      else if Ascii.eqb c "0" && negb (String.eqb s' "") then None
      else
        match digitsValue 0 s with
        | Some v => if v <=? 255 then Some (Z.to_N v) else None
        | None => None
        end
  end.

Definition ParseAddr (s : string) : option (option N) :=
  match Split s "." with
  | [a; b; c; d] =>
      match parseOctet a, parseOctet b, parseOctet c, parseOctet d with
      | Some a, Some b, Some c, Some d =>
          Some (Some (a * 16777216 + b * 65536 + c * 256 + d)%N)
      | _, _, _, _ => None
      end
  | _ => None
  end.

Definition digit (n : N) : ascii := ascii_of_N (48 + n).

(** The decimal form of an octet. *)
Definition decimal (n : N) : string :=
  if (n <? 10)%N then String (digit n) ""
  else if (n <? 100)%N then String (digit (n / 10)) (String (digit (n mod 10)) "")
  else String (digit (n / 100))
         (String (digit (n / 10 mod 10)) (String (digit (n mod 10)) "")).

Definition AddrString (a : option N) : string :=
  match a with
  | None => "invalid IP"
  | Some v =>
      if (v <? 4294967296)%N then
        decimal (v / 16777216) +:+ "." +:+ decimal (v / 65536 mod 256) +:+ "."
        +:+ decimal (v / 256 mod 256) +:+ "." +:+ decimal (v mod 256)
      else "invalid IP"
  end.

Definition IsLoopback (a : option N) : bool :=
  match a with
  | Some v => (v / 16777216 =? 127)%N
  | None => false
  end.

Definition IsUnspecified (a : option N) : bool :=
  match a with
  | Some v => (v =? 0)%N
  | None => false
  end.

(** ["addr/bits"], cut at the last ['/']; the bits have no sign and no
    leading zero and are at most 32. *)
Definition ParsePrefix (s : string) : option (N * Z) :=
  let i := LastIndex s "/" in
  if i <? 0 then None
  else
    match ParseAddr (stake (Z.to_nat i) s) with
    | Some (Some v) =>
        let bitsStr := sdrop (Z.to_nat (i + 1)) s in
        match bitsStr with
        | EmptyString => None
        | String c rest =>
            if negb (String.eqb rest "") && negb (isDigit c && negb (Ascii.eqb c "0"))
            then None
            else
              match Atoi bitsStr with
              | Ok bits => if (0 <=? bits) && (bits <=? 32) then Some (v, bits) else None
              | _ => None
              end
        end
    | _ => None
    end.

Definition PrefixContains (p : N * Z) (a : option N) : bool :=
  match a with
  | Some v => (N.shiftr (N.lxor v (fst p)) (Z.to_N (32 - snd p)) =? 0)%N
  | None => false
  end.

(** The decimal form of an octet parses back and has no separator. *)
Definition octetOk (o : N) : bool :=
  bool_decide (parseOctet (decimal o) = Some o)
  && negb (Contains (decimal o) ".")
  && negb (Contains (decimal o) "/").

Definition lowerByte (c : ascii) : ascii :=
  if (65 <=? byteOf c)%N && (byteOf c <=? 90)%N
  then ascii_of_N (byteOf c + 32) else c.

Fixpoint ToLower (s : string) : string :=
  match s with
  | EmptyString => EmptyString
  | String c s' => String (lowerByte c) (ToLower s')
  end.

Definition EqualFold (s t : string) : bool := String.eqb (ToLower s) (ToLower t).

(** Some entries of [dns.TypeToString]. *)
Definition TypeToString (qType : Z) : string :=
  if qType =? 1 then "A"
  else if qType =? 2 then "NS"
  else if qType =? 5 then "CNAME"
  else if qType =? 6 then "SOA"
  else if qType =? 12 then "PTR"
  else if qType =? 15 then "MX"
  else if qType =? 16 then "TXT"
  else if qType =? 28 then "AAAA"
  else "".

Definition lib : GoLib :=
  Build_GoLib (option N) _ _ None ParseAddr AddrString IsLoopback IsUnspecified
    (N * Z)%type ParsePrefix PrefixContains
    Empty_set (fun _ => None) (fun re _ => match re with end)
    TypeToString EqualFold ToLower.

End IPv4.

(** ** Configurations used in the examples

    A configuration with the user group [default] bound to the rule group
    [ads], whose single source is the file [ads.txt]; the engine is the one
    [main] builds: [NewEngine], then a first [ReloadRules]. *)

Module Scenario.

#[local] Existing Instance IPv4.lib.

Definition orElse {A : Type} (o : outcome A) (d : A) : A :=
  match o with
  | Ok a => a
  | _ => d
  end.

Definition noEngine : Engine :=
  mkEngine (Config.mk [] [] [] [] "") (mkUserMatcher ∅ ∅ [] "")
    (mkScheduleMatcher ∅) [] NewDomainTrie [] ∅ ∅ "".

Definition adsConfig (policies : list Policy.t) (scheds : list ScheduleConfig.t)
  : Config.t :=
  Config.mk []
    [UserGroup.mk "default" policies]
    [RuleGroup.mk "ads" [Source.mk "local" "" "ads.txt"]]
    scheds "default".

Definition fileLoader (lines : list string) : Loader :=
  mkLoader {["ads.txt" := lines]} ∅.

(** The engine after start-up, for the rule lines [lines] of [ads.txt]. *)
Definition started (c : Config.t) (l : Loader) : Engine :=
  orElse (e ← NewEngine c; ReloadRules e l) noEngine.

Definition adsEngine (lines : list string) : Engine :=
  started (adsConfig [Policy.mk "ads" ""] []) (fileLoader lines).

Definition monday (h m : Z) : Time := mkTime 1 h m.

Definition typeA : Z := 1.
Definition typeAAAA : Z := 28.

Definition client (a b c d : N) : Addr :=
  Some (a * 16777216 + b * 65536 + c * 256 + d)%N.

(** A query of type A from 192.168.1.5, on a Monday at 10:00. *)
Definition ask (e : Engine) (qName : string) : ResolveResult.t :=
  Resolve e (monday 10 0) qName typeA (client 192 168 1 5) "".

(** Two rule groups that read the same file; the user group [default] is
    bound to the second one, which also has a remote source. *)
Definition sharedConfig : Config.t :=
  Config.mk []
    [UserGroup.mk "default" [Policy.mk "basic" ""]]
    [RuleGroup.mk "strict" [Source.mk "local" "" "ads.txt"];
     RuleGroup.mk "basic" [Source.mk "local" "" "ads.txt";
                           Source.mk "remote" "https://lists.example/extra.txt" ""]]
    [] "default".

Definition sharedLoader : Loader :=
  mkLoader {["ads.txt" := ["||ads.example^"]]}
           {["https://lists.example/extra.txt" := []]}.

Definition sharedEngine : Engine := started sharedConfig sharedLoader.

(** A schedule "evening", Monday 18:00 to 23:00, on the policy. *)
Definition eveningConfig : Config.t :=
  adsConfig [Policy.mk "ads" "evening"]
    [ScheduleConfig.mk "evening" [ScheduleItem.mk ["Mon"] ["18:00-23:00"]]].

End Scenario.

Import Scenario.

(** ** Notions used in the statements *)

(** [strings.Join(parts, sep)] for a one-byte separator. *)
Fixpoint Join (parts : list string) (sep : ascii) : string :=
  match parts with
  | [] => EmptyString
  | [p] => p
  | p :: ps => p +:+ String sep (Join ps sep)
  end.

(** [covers P q]: the name [q] is [P] or ends with ["." + P]. *)
Definition covers (P q : string) : Prop :=
  q = P \/ HasSuffix q ("." +:+ P) = true.

#[global] Instance covers_dec (P q : string) : Decision (covers P q).
Proof. unfold covers. apply _. Defined.

Section Notions.
Context `{GoLib}.

(** The priority slot of a rule: its polarity and its importance. *)
Definition inTier (whitelist important : bool) (r : Rule) : bool :=
  Bool.eqb (IsWhitelist r) whitelist
  && Bool.eqb (Important (RuleModifiers r)) important.

(** The candidate [l] survives the tests of the group [gid] and belongs
    to the given slot. *)
Definition eligible (st : list Rule) (user : option User.t) (qName : string)
    (qType : Z) (clientIP : Addr) (gid : Z) (whitelist important : bool)
    (l : loc) : bool :=
  applicable user qName qType clientIP gid (rule st l)
  && inTier whitelist important (rule st l).

(** What the program relies on from [net/netip]: no string is both an
    address and a prefix; the textual form of an address parses back to
    that address when it parses at all, and is not a prefix; an address
    literal starts with neither ['/'] nor ['|']. *)
Class NetipFacts : Prop := {
  addr_not_prefix s a : ParseAddr s = Some a -> ParsePrefix s = None;
  addr_string_parse a b : ParseAddr (AddrString a) = Some b -> b = a;
  addr_string_not_prefix a : ParsePrefix (AddrString a) = None;
  addr_literal_head s a :
    ParseAddr s = Some a -> HasPrefix s "/" = false /\ HasPrefix s "|" = false;
}.

(** A [$client] token matches the client: it is the name of the matched
    user, or an address equal to the client's, or a prefix that contains
    it, or the textual form of the client's address. *)
Definition tokenMatches (user : option User.t) (clientIP : Addr) (token : string)
  : bool :=
  match user with
  | Some u => String.eqb token (User.Name u)
  | None => false
  end
  || match ParseAddr token with
     | Some ip => bool_decide (ip = clientIP)
     | None => false
     end
  || match ParsePrefix token with
     | Some prefix => PrefixContains prefix clientIP
     | None => false
     end
  || String.eqb token (AddrString clientIP).

(** The rule of [$client] on a list of tokens: exclusion when the first
    token begins with ['~'] (the rule applies when no token matches),
    inclusion otherwise (the rule applies when some token matches); a
    leading ['~'] is stripped from a token before it is matched. *)
Definition clientRule (user : option User.t) (clientIP : Addr) (tokens : list string)
  : bool :=
  let matched :=
    existsb (fun t => tokenMatches user clientIP (TrimPrefix t "~")) tokens in
  if HasPrefix (hd "" tokens) "~" then negb matched else matched.

(** The tokens of [$client]: the values split on ['|'], each piece
    trimmed of white space. *)
Definition clientTokens (m : Modifiers) : list string :=
  map TrimSpace (flattenValues (Client m)).

(** A modifier token [key[=value]] whose key is empty. *)
Definition hasEmptyKey (token : string) : bool :=
  String.eqb (TrimSpace (hd "" (SplitN2 token "="))) "".

(** The slot of [Resolve]'s inner loop for a polarity and an importance. *)
Definition slotOf (whitelist important : bool) (s : Slots) : option loc :=
  match whitelist, important with
  | true, true => importantWhitelistRule s
  | false, true => importantBlockRule s
  | true, false => whitelistRule s
  | false, false => blockRule s
  end.

End Notions.

(** * Properties *)

#[local] Arguments String.append !_ _ : simpl nomatch.

(** ** Byte strings *)

Section StringFacts.

Lemma append_nil_r (s : string) : s +:+ "" = s.
Proof. induction s as [|c s IH]; simpl; [reflexivity | now rewrite IH]. Qed.

Lemma append_assoc (a b c : string) : (a +:+ b) +:+ c = a +:+ (b +:+ c).
Proof. induction a as [|x a IH]; simpl; [reflexivity | now rewrite IH]. Qed.

Lemma length_append (a b : string) :
  String.length (a +:+ b) = (String.length a + String.length b)%nat.
Proof. induction a as [|x a IH]; simpl; [reflexivity | now rewrite IH]. Qed.

Lemma stake_sdrop (n : nat) (s : string) : stake n s +:+ sdrop n s = s.
Proof.
  revert s; induction n as [|n IH]; intros [|c s]; simpl; try reflexivity.
  now rewrite IH.
Qed.

Lemma sdrop_append (a b : string) : sdrop (String.length a) (a +:+ b) = b.
Proof. induction a as [|x a IH]; simpl; [reflexivity | exact IH]. Qed.

Lemma stake_append (a b : string) : stake (String.length a) (a +:+ b) = a.
Proof.
  induction a as [|x a IH]; simpl; [now destruct b | now rewrite IH].
Qed.

Lemma length_sdrop (n : nat) (s : string) :
  String.length (sdrop n s) = (String.length s - n)%nat.
Proof.
  revert s; induction n as [|n IH]; intros [|c s]; simpl; try reflexivity.
  apply IH.
Qed.

Lemma HasPrefix_spec (s p : string) :
  HasPrefix s p = true <-> exists x, s = p +:+ x.
Proof.
  revert s; induction p as [|a p IH]; intros s; simpl.
  - split; [intros _; now exists s | reflexivity].
  - destruct s as [|b s].
    + split; [discriminate | intros [x Hx]; discriminate].
    + destruct (Ascii.eqb_spec a b) as [->|Hne].
      * rewrite IH. split; intros [x Hx]; exists x; congruence.
      * split; [discriminate | intros [x Hx]; congruence].
Qed.

Lemma HasSuffix_spec (s t : string) :
  HasSuffix s t = true <-> exists x, s = x +:+ t.
Proof.
  unfold HasSuffix. rewrite andb_true_iff, Nat.leb_le, String.eqb_eq. split.
  - intros [Hle Heq].
    exists (stake (String.length s - String.length t) s).
    transitivity (stake (String.length s - String.length t) s
                  +:+ sdrop (String.length s - String.length t) s).
    + symmetry. apply stake_sdrop.
    + now f_equal.
  - intros [x ->]. rewrite length_append. split; [lia|].
    replace (String.length x + String.length t - String.length t)%nat
      with (String.length x) by lia.
    apply sdrop_append.
Qed.

Lemma TrimSuffix_append (x t : string) : TrimSuffix (x +:+ t) t = x.
Proof.
  unfold TrimSuffix.
  assert (HasSuffix (x +:+ t) t = true) as -> by (apply HasSuffix_spec; eauto).
  rewrite length_append.
  replace (String.length x + String.length t - String.length t)%nat
    with (String.length x) by lia.
  apply stake_append.
Qed.

Lemma Split_nonempty (s : string) (sep : ascii) : Split s sep <> [].
Proof.
  destruct s as [|c s]; simpl; [discriminate|].
  destruct (Ascii.eqb c sep); [discriminate|].
  destruct (Split s sep); discriminate.
Qed.

Lemma Split_append (a b : string) (sep : ascii) :
  Split (a +:+ String sep b) sep = Split a sep ++ Split b sep.
Proof.
  induction a as [|c a IH]; simpl.
  - now rewrite Ascii.eqb_refl.
  - destruct (Ascii.eqb c sep); rewrite IH; [reflexivity|].
    pose proof (Split_nonempty a sep).
    destruct (Split a sep); [congruence | reflexivity].
Qed.

Lemma Join_Split (s : string) (sep : ascii) : Join (Split s sep) sep = s.
Proof.
  induction s as [|c s IH]; simpl; [reflexivity|].
  pose proof (Split_nonempty s sep) as Hne.
  destruct (Ascii.eqb_spec c sep) as [->|Hc].
  - simpl. destruct (Split s sep) as [|p ps]; [congruence|].
    now rewrite IH.
  - destruct (Split s sep) as [|p ps]; [congruence|].
    rewrite <- IH. destruct ps; reflexivity.
Qed.

Lemma Join_app (l1 l2 : list string) (sep : ascii) :
  l1 <> [] -> l2 <> [] ->
  Join (l1 ++ l2) sep = Join l1 sep +:+ String sep (Join l2 sep).
Proof.
  intros H1 H2. induction l1 as [|p l1 IH]; [congruence|].
  destruct l1 as [|p' l1].
  - simpl. destruct l2; [congruence | reflexivity].
  - change (Join ((p :: p' :: l1) ++ l2) sep)
      with (p +:+ String sep (Join ((p' :: l1) ++ l2) sep)).
    rewrite IH by discriminate.
    change (Join (p :: p' :: l1) sep) with (p +:+ String sep (Join (p' :: l1) sep)).
    now rewrite append_assoc.
Qed.

(** The labels of [P] end the labels of [q] exactly when [q] is [P] or
    ends with the separator followed by [P]. *)
Lemma suffix_Split (P q : string) (sep : ascii) :
  Split P sep `suffix_of` Split q sep <->
  q = P \/ exists x, q = x +:+ String sep P.
Proof.
  split.
  - intros [l Hl]. destruct l as [|p l].
    + left. rewrite <- (Join_Split q sep), <- (Join_Split P sep). now rewrite Hl.
    + right. exists (Join (p :: l) sep).
      rewrite <- (Join_Split q sep) at 1. rewrite Hl.
      rewrite Join_app; [|discriminate|apply Split_nonempty].
      now rewrite Join_Split.
  - intros [->|[x ->]]; [reflexivity|].
    rewrite Split_append. now exists (Split x sep).
Qed.

Lemma covers_spec (P q : string) :
  covers P q <-> Split P "." `suffix_of` Split q ".".
Proof.
  unfold covers. rewrite suffix_Split, HasSuffix_spec. reflexivity.
Qed.

End StringFacts.

(** ** The trie *)

Section TrieFacts.

Lemma suffix_prefix_rev {A : Type} (a b : list A) :
  a `suffix_of` b <-> rev a `prefix_of` rev b.
Proof.
  split.
  - intros [k ->]. exists (rev k). apply rev_app_distr.
  - intros [k Hk]. exists (rev k).
    rewrite <- (rev_involutive b), Hk, rev_app_distr. now rewrite rev_involutive.
Qed.

Lemma searchPath_emptyNode (path : list string) : searchPath path emptyNode = [].
Proof. destruct path; reflexivity. Qed.

Lemma rules_insertPath (p : string) (path : list string) (l : loc) (node : TrieNode) :
  rules (insertPath (p :: path) l node) = rules node.
Proof. reflexivity. Qed.

(** In a trie that holds one rule, a walk meets the rule exactly when
    the path of the rule starts the path walked. *)
Lemma searchPath_insertPath (ppath qpath : list string) (l : loc) :
  ppath <> [] ->
  searchPath qpath (insertPath ppath l emptyNode)
  = if decide (ppath `prefix_of` qpath) then [l] else [].
Proof.
  revert qpath. induction ppath as [|p rest IH]; intros qpath Hne; [congruence|].
  destruct qpath as [|q qs].
  - cbn [searchPath]. case_decide as Hp; [|reflexivity].
    now apply prefix_nil_not in Hp.
  - cbn [insertPath searchPath children emptyNode]. rewrite lookup_empty. cbn [default].
    destruct (decide (p = q)) as [->|Hpq].
    + rewrite lookup_insert_eq.
      destruct rest as [|p' rest'].
      * cbn [insertPath rules emptyNode children app].
        replace (searchPath qs {| children := ∅; rules := [l] |}) with (@nil loc)
          by (destruct qs; reflexivity).
        case_decide as Hn; [reflexivity|].
        exfalso. apply Hn. apply prefix_cons, prefix_nil.
      * rewrite rules_insertPath. cbn [emptyNode rules app].
        rewrite IH by discriminate.
        destruct (decide (p' :: rest' `prefix_of` qs)) as [Hp|Hp];
          destruct (decide (q :: p' :: rest' `prefix_of` q :: qs)) as [Hq|Hq];
          try reflexivity.
        -- exfalso. apply Hq. now apply prefix_cons.
        -- exfalso. apply Hp. now apply prefix_cons_inv_2 in Hq.
    + rewrite lookup_insert_ne by congruence. rewrite lookup_empty.
      case_decide as Hp; [|reflexivity].
      now apply prefix_cons_inv_1 in Hp.
Qed.

End TrieFacts.

(** ** The decision of [Resolve] *)

Section ResolveFacts.
Context `{GoLib}.

Implicit Types (st : list Rule) (user : option User.t) (qName : string)
  (qType gid : Z) (clientIP : Addr) (M : list loc) (l : loc).

Lemma last_filter_snoc {A : Type} (f : A -> bool) (xs : list A) (x : A) :
  last (List.filter f (xs ++ [x]))
  = if f x then Some x else last (List.filter f xs).
Proof.
  rewrite List.filter_app. simpl. destruct (f x).
  - apply last_snoc.
  - now rewrite app_nil_r.
Qed.

Lemma last_filter_Some {A : Type} (f : A -> bool) (xs : list A) (x : A) :
  last (List.filter f xs) = Some x -> x ∈ xs /\ f x = true.
Proof.
  intros Hl. apply last_Some_elem_of, list_elem_of_In, filter_In in Hl.
  now rewrite list_elem_of_In.
Qed.

Lemma last_filter_None {A : Type} (f : A -> bool) (xs : list A) :
  last (List.filter f xs) = None <-> forall x, x ∈ xs -> f x = false.
Proof.
  rewrite last_None. split.
  - intros Hnil x Hx. destruct (f x) eqn:Hf; [|reflexivity].
    assert (In x (List.filter f xs)) as Hin
      by (apply filter_In; split; [now apply list_elem_of_In | assumption]).
    rewrite Hnil in Hin. destruct Hin.
  - intros Hall. induction xs as [|y xs IH]; [reflexivity|].
    simpl. rewrite (Hall y) by apply list_elem_of_here.
    apply IH. intros x Hx. apply Hall. now apply list_elem_of_further.
Qed.

Lemma last_filter_is_Some {A : Type} (f : A -> bool) (xs : list A) :
  (exists x, x ∈ xs /\ f x = true) -> is_Some (last (List.filter f xs)).
Proof.
  intros (x & Hx & Hf).
  destruct (last (List.filter f xs)) eqn:Hl; [eauto|].
  rewrite last_filter_None in Hl. rewrite (Hl x Hx) in Hf. discriminate.
Qed.

Lemma scanGroup_snoc st user qName qType clientIP gid M l :
  scanGroup st user qName qType clientIP gid (M ++ [l])
  = if applicable user qName qType clientIP gid (rule st l)
    then place (scanGroup st user qName qType clientIP gid M) l (rule st l)
    else scanGroup st user qName qType clientIP gid M.
Proof. unfold scanGroup. now rewrite fold_left_app. Qed.

(** What the inner loop leaves in the four slots. *)
Lemma scanGroup_slots st user qName qType clientIP gid M :
  let s := scanGroup st user qName qType clientIP gid M in
  let slot w i := last (List.filter (eligible st user qName qType clientIP gid w i) M) in
  importantWhitelistRule s = slot true true
  /\ importantBlockRule s = slot false true
  /\ whitelistRule s = slot true false
  /\ blockRule s = slot false false.
Proof.
  cbv zeta. induction M as [|l M IH] using rev_ind; [now repeat split|].
  destruct IH as (IH1 & IH2 & IH3 & IH4).
  rewrite scanGroup_snoc, !last_filter_snoc. unfold eligible, inTier, place.
  destruct (applicable user qName qType clientIP gid (rule st l));
    [|now repeat split].
  destruct (IsWhitelist (rule st l)), (Important (RuleModifiers (rule st l)));
    simpl; now repeat split.
Qed.

Lemma decideGroup_noSlots st user : decideGroup st user noSlots = None.
Proof. reflexivity. Qed.

Lemma scanGroup_none st user qName qType clientIP gid M :
  (forall l, l ∈ M -> applicable user qName qType clientIP gid (rule st l) = false) ->
  scanGroup st user qName qType clientIP gid M = noSlots.
Proof.
  induction M as [|l M IH] using rev_ind; intros Hall; [reflexivity|].
  rewrite scanGroup_snoc, Hall by (apply elem_of_app; right; apply list_elem_of_here).
  apply IH. intros l' Hl'. apply Hall, elem_of_app. now left.
Qed.

Lemma resolveGroups_skip st user qName qType clientIP M pre rest :
  (forall g l, g ∈ pre -> l ∈ M ->
               applicable user qName qType clientIP g (rule st l) = false) ->
  resolveGroups st user qName qType clientIP M (pre ++ rest)
  = resolveGroups st user qName qType clientIP M rest.
Proof.
  induction pre as [|g pre IH]; intros Hall; [reflexivity|].
  simpl. rewrite scanGroup_none, decideGroup_noSlots.
  - apply IH. intros g' l Hg. apply Hall. now apply list_elem_of_further.
  - intros l. apply Hall, list_elem_of_here.
Qed.

(** The rule a group decides with is a candidate that passed the tests
    of the group. *)
Lemma decideGroup_rule st user qName qType clientIP gid M res l :
  decideGroup st user (scanGroup st user qName qType clientIP gid M) = Some res ->
  ResolveResult.Rule res = Some l ->
  l ∈ M /\ applicable user qName qType clientIP gid (rule st l) = true.
Proof.
  destruct (scanGroup_slots st user qName qType clientIP gid M)
    as (H1 & H2 & H3 & H4).
  unfold decideGroup.
  destruct (importantWhitelistRule _) as [l1|] eqn:E1;
    [|destruct (importantBlockRule _) as [l2|] eqn:E2;
      [|destruct (whitelistRule _) as [l3|] eqn:E3;
        [|destruct (blockRule _) as [l4|] eqn:E4; [|discriminate]]]].
  all: intros Hres Hl.
  4: destruct (negb _) in Hres.
  all: injection Hres as <-; simpl in Hl; injection Hl as ->.
  all: match goal with
       | Hs : Some ?x = last _ |- ?x ∈ _ /\ _ =>
           symmetry in Hs; apply last_filter_Some in Hs;
           destruct Hs as [Hin He]; unfold eligible in He;
           apply andb_true_iff in He; now destruct He
       end.
Qed.

Lemma resolveGroups_rule st user qName qType clientIP M gids l :
  ResolveResult.Rule (resolveGroups st user qName qType clientIP M gids) = Some l ->
  exists gid, gid ∈ gids /\ l ∈ M
              /\ applicable user qName qType clientIP gid (rule st l) = true.
Proof.
  induction gids as [|gid gids IH]; [discriminate|].
  simpl. destruct (decideGroup _ _ _) as [res|] eqn:Hd.
  - intros Hl. exists gid. split; [apply list_elem_of_here|].
    eapply decideGroup_rule; eassumption.
  - intros Hl. destruct (IH Hl) as (g & Hg & Hrest).
    exists g. split; [now apply list_elem_of_further | assumption].
Qed.

End ResolveFacts.

Section ResolveTheorems.
Context `{GoLib}.

Implicit Types (e : Engine) (now : Time) (qName clientMAC : string)
  (qType gid : Z) (clientIP : Addr) (l : loc).

Lemma eligible_tier st user qName qType clientIP gid l :
  applicable user qName qType clientIP gid (rule st l) = true ->
  eligible st user qName qType clientIP gid
    (IsWhitelist (rule st l)) (Important (RuleModifiers (rule st l))) l = true.
Proof.
  intros Ha. unfold eligible, inTier. rewrite Ha.
  now destruct (IsWhitelist _), (Important _).
Qed.

Lemma Resolve_active e now qName qType clientIP clientMAC :
  getActiveGroupIDs e (userGroupNameOf e (GetUser e clientIP clientMAC)) now <> [] ->
  Resolve e now qName qType clientIP clientMAC
  = resolveGroups (store e) (GetUser e clientIP clientMAC) qName qType clientIP
      (allMatches e qName)
      (getActiveGroupIDs e (userGroupNameOf e (GetUser e clientIP clientMAC)) now).
Proof.
  intros Hne. unfold Resolve, GetUser in *.
  destruct (getActiveGroupIDs _ _ _); [congruence | reflexivity].
Qed.

(** The decision of the first active group that has an applicable
    candidate. *)
Lemma resolve_decides_by_slot e now qName qType clientIP clientMAC
    (pre post : list Z) gid :
  let user := GetUser e clientIP clientMAC in
  let M := allMatches e qName in
  let app g l := applicable user qName qType clientIP g (rule (store e) l) in
  let has w i :=
    exists l, l ∈ M /\ eligible (store e) user qName qType clientIP gid w i l = true in
  let res := Resolve e now qName qType clientIP clientMAC in
  getActiveGroupIDs e (userGroupNameOf e user) now = pre ++ gid :: post ->
  (forall g l, g ∈ pre -> l ∈ M -> app g l = false) ->
  (exists l, l ∈ M /\ app gid l = true) ->
  exists w i l,
    ResolveResult.Rule res = Some l
    /\ l ∈ M
    /\ eligible (store e) user qName qType clientIP gid w i l = true
    /\ ResolveResult.Blocked res = negb w
    /\ (has true true -> w = true /\ i = true)
    /\ (~ has true true -> has false true -> w = false /\ i = true)
    /\ (~ has true true -> ~ has false true -> has true false ->
        w = true /\ i = false)
    /\ (~ has true true -> ~ has false true -> ~ has true false ->
        w = false /\ i = false).
Proof.
  cbv zeta. intros Hact Hpre (l0 & Hl0 & Happ0).
  rewrite Resolve_active by (rewrite Hact; now destruct pre).
  rewrite Hact, resolveGroups_skip by exact Hpre.
  cbn [resolveGroups].
  set (user := GetUser e clientIP clientMAC) in *.
  set (M := allMatches e qName) in *.
  destruct (scanGroup_slots (store e) user qName qType clientIP gid M)
    as (H1 & H2 & H3 & H4).
  unfold decideGroup.
  pose proof (eligible_tier _ _ _ _ _ _ _ Happ0) as Hel0.
  destruct (last (List.filter (eligible (store e) user qName qType clientIP gid true true) M))
    as [l1|] eqn:E1; rewrite H1.
  { apply last_filter_Some in E1 as [Hin He].
    exists true, true, l1. split_and!; try assumption; try reflexivity.
    - intros _. now split.
    - intros Hn. exfalso. apply Hn. eauto.
    - intros Hn. exfalso. apply Hn. eauto.
    - intros Hn. exfalso. apply Hn. eauto. }
  rewrite last_filter_None in E1.
  assert (~ exists l, l ∈ M /\ eligible (store e) user qName qType clientIP gid true true l = true)
    as N1 by (intros (l & Hl & He); rewrite (E1 l Hl) in He; discriminate).
  destruct (last (List.filter (eligible (store e) user qName qType clientIP gid false true) M))
    as [l2|] eqn:E2; rewrite H2.
  { apply last_filter_Some in E2 as [Hin He].
    exists false, true, l2. split_and!; try assumption; try reflexivity.
    - intros Hh. now destruct N1.
    - intros _ _. now split.
    - intros _ Hn. exfalso. apply Hn. eauto.
    - intros _ Hn. exfalso. apply Hn. eauto. }
  rewrite last_filter_None in E2.
  assert (~ exists l, l ∈ M /\ eligible (store e) user qName qType clientIP gid false true l = true)
    as N2 by (intros (l & Hl & He); rewrite (E2 l Hl) in He; discriminate).
  destruct (last (List.filter (eligible (store e) user qName qType clientIP gid true false) M))
    as [l3|] eqn:E3; rewrite H3.
  { apply last_filter_Some in E3 as [Hin He].
    exists true, false, l3. split_and!; try assumption; try reflexivity.
    - intros Hh. now destruct N1.
    - intros _ Hh. now destruct N2.
    - intros _ _ _. now split.
    - intros _ _ Hn. exfalso. apply Hn. eauto. }
  rewrite last_filter_None in E3.
  assert (~ exists l, l ∈ M /\ eligible (store e) user qName qType clientIP gid true false l = true)
    as N3 by (intros (l & Hl & He); rewrite (E3 l Hl) in He; discriminate).
  assert (is_Some (last (List.filter
                           (eligible (store e) user qName qType clientIP gid false false) M)))
    as [l4 E4].
  { apply last_filter_is_Some. exists l0. split; [assumption|].
    destruct (IsWhitelist (rule (store e) l0)) eqn:Ew,
             (Important (RuleModifiers (rule (store e) l0))) eqn:Ei.
    - destruct N1; eauto.
    - destruct N3; eauto.
    - destruct N2; eauto.
    - assumption. }
  rewrite H4, E4. apply last_filter_Some in E4 as [Hin He].
  exists false, false, l4.
  destruct (negb _); split_and!; try assumption; try reflexivity.
  all: try (intros Hh; now destruct N1).
  all: try (intros _ Hh; now destruct N2).
  all: try (intros _ _ Hh; now destruct N3).
  all: intros _ _ _; now split.
Qed.

Lemma has_or_not {A : Type} (f : A -> bool) (xs : list A) :
  (exists x, x ∈ xs /\ f x = true) \/ ~ (exists x, x ∈ xs /\ f x = true).
Proof.
  destruct (existsb f xs) eqn:E.
  - left. apply existsb_exists in E as (x & Hx & Hf).
    exists x. split; [now apply list_elem_of_In | assumption].
  - right. intros (x & Hx & Hf).
    assert (existsb f xs = true) as E'
      by (apply existsb_exists; exists x; split; [now apply list_elem_of_In | assumption]).
    congruence.
Qed.

(** C1. Within the first active rule group that has an applicable
    candidate, [Resolve] decides with a rule [l] of that group's
    candidates, and the slot [(w, i)] of [l] (whitelist or block, important
    or not) is the first non-empty one in the order: important whitelist,
    important block, whitelist, block.  The query is blocked exactly when
    the deciding rule is a block rule.  Hence when an important rule
    applies the deciding rule is important, whatever the polarity of the
    other rules, and when a whitelist rule of the deciding importance
    applies the deciding rule is a whitelist rule. *)
Theorem resolve_four_tier_priority e now qName qType clientIP clientMAC
    (pre post : list Z) gid :
  let user := GetUser e clientIP clientMAC in
  let M := allMatches e qName in
  let app g l := applicable user qName qType clientIP g (rule (store e) l) in
  let has w i :=
    exists l, l ∈ M /\ eligible (store e) user qName qType clientIP gid w i l = true in
  let res := Resolve e now qName qType clientIP clientMAC in
  getActiveGroupIDs e (userGroupNameOf e user) now = pre ++ gid :: post ->
  (forall g l, g ∈ pre -> l ∈ M -> app g l = false) ->
  (exists l, l ∈ M /\ app gid l = true) ->
  exists w i l,
    ResolveResult.Rule res = Some l
    /\ l ∈ M
    /\ eligible (store e) user qName qType clientIP gid w i l = true
    /\ ResolveResult.Blocked res = negb w
    /\ (has true true -> w = true /\ i = true)
    /\ (~ has true true -> has false true -> w = false /\ i = true)
    /\ (~ has true true -> ~ has false true -> has true false ->
        w = true /\ i = false)
    /\ (~ has true true -> ~ has false true -> ~ has true false ->
        w = false /\ i = false)
    /\ (forall w', has w' true -> i = true)
    /\ (has true i -> w = true).
Proof.
  cbv zeta. intros Hact Hpre Hex.
  destruct (resolve_decides_by_slot e now qName qType clientIP clientMAC pre post gid
              Hact Hpre Hex)
    as (w & i & l & Hr & Hl & He & Hb & C1 & C2 & C3 & C4).
  exists w, i, l. split_and!; try assumption.
  - intros w' Hh.
    destruct (has_or_not (eligible (store e) (GetUser e clientIP clientMAC) qName qType
                            clientIP gid true true) (allMatches e qName)) as [Htt|Htt].
    + now destruct (C1 Htt).
    + destruct w'; [now destruct Htt | now destruct (C2 Htt Hh)].
  - intros Hh.
    destruct (has_or_not (eligible (store e) (GetUser e clientIP clientMAC) qName qType
                            clientIP gid true true) (allMatches e qName)) as [Htt|Htt];
      [now destruct (C1 Htt)|].
    destruct (has_or_not (eligible (store e) (GetUser e clientIP clientMAC) qName qType
                            clientIP gid false true) (allMatches e qName)) as [Hft|Hft].
    { destruct (C2 Htt Hft) as [_ ->]. now destruct Htt. }
    destruct (has_or_not (eligible (store e) (GetUser e clientIP clientMAC) qName qType
                            clientIP gid true false) (allMatches e qName)) as [Htf|Htf];
      [now destruct (C3 Htt Hft Htf)|].
    destruct (C4 Htt Hft Htf) as [_ ->]. now destruct Htf.
Qed.


(** When a group decides with an important block rule, the result carries
    no rewrite destination, whatever the rule's [dns_rewrite]. *)
Lemma decideGroup_important_block (st : list Rule) (user : option User.t) (s : Slots) l :
  importantWhitelistRule s = None ->
  importantBlockRule s = Some l ->
  decideGroup st user s
  = Some (ResolveResult.mk true "Important Blocked" (Some l) user "").
Proof. intros Hw Hb. unfold decideGroup. now rewrite Hw, Hb. Qed.

(** C4 (as the code has it). Each of the four slots ends up holding the
    last rule, in the order the candidates are enumerated, that passes the
    tests of the group and belongs to the slot: a later applicable rule
    replaces an earlier one of the same slot. *)
Theorem slot_keeps_last_applicable (st : list Rule) (user : option User.t)
    qName qType clientIP gid (M : list loc) (w i : bool) :
  slotOf w i (scanGroup st user qName qType clientIP gid M)
  = last (List.filter (eligible st user qName qType clientIP gid w i) M).
Proof.
  destruct (scanGroup_slots st user qName qType clientIP gid M)
    as (H1 & H2 & H3 & H4).
  destruct w, i; assumption.
Qed.

(** C7. A candidate of kind Exact whose pattern is not the query name
    (trailing dot stripped) is dropped by the tests of every group, so
    that a strict subdomain of the pattern never passes; and the rule
    [Resolve] decides with, when it is of kind Exact, has the query name
    as its pattern. *)
Theorem exact_rule_needs_equal_name e now qName qType clientIP clientMAC :
  (forall user gid (r : Rule),
      Type_ r = RuleTypeExact ->
      Pattern r <> TrimSuffix qName "." ->
      applicable user qName qType clientIP gid r = false)
  /\ (forall user gid (r : Rule) (x : string),
        Type_ r = RuleTypeExact ->
        TrimSuffix qName "." = x +:+ "." +:+ Pattern r ->
        applicable user qName qType clientIP gid r = false)
  /\ (forall l,
        ResolveResult.Rule (Resolve e now qName qType clientIP clientMAC) = Some l ->
        Type_ (rule (store e) l) = RuleTypeExact ->
        Pattern (rule (store e) l) = TrimSuffix qName ".").
Proof.
  assert (forall user gid (r : Rule),
             Type_ r = RuleTypeExact ->
             Pattern r <> TrimSuffix qName "." ->
             applicable user qName qType clientIP gid r = false) as Hdrop.
  { intros user gid r Ht Hp. unfold applicable.
    destruct (negb (GroupID r =? gid)); [reflexivity|].
    rewrite bool_decide_eq_true_2 by assumption.
    destruct (String.eqb_spec (Pattern r) (TrimSuffix qName ".")); [congruence|].
    reflexivity. }
  split_and!.
  - exact Hdrop.
  - intros user gid r x Ht Hq. apply Hdrop; [assumption|].
    rewrite Hq. intros Heq.
    apply (f_equal String.length) in Heq.
    rewrite length_append in Heq. simpl in Heq. lia.
  - intros l Hl Ht. unfold Resolve in Hl.
    destruct (length _ =? 0)%nat; [discriminate|].
    apply resolveGroups_rule in Hl as (gid & _ & _ & Ha).
    destruct (String.eqb_spec (Pattern (rule (store e) l)) (TrimSuffix qName "."))
      as [Heq|Hne]; [assumption|].
    rewrite (Hdrop _ _ _ Ht Hne) in Ha. discriminate.
Qed.

Lemma resolveGroups_nil (st : list Rule) (user : option User.t) qName qType clientIP
    (gids : list Z) :
  resolveGroups st user qName qType clientIP [] gids
  = ResolveResult.mk false "Not found" None user "".
Proof. induction gids as [|g gids IH]; [reflexivity | exact IH]. Qed.

Lemma applicable_plain user qName qType clientIP gid (r : Rule) :
  Type_ r = RuleTypeDistinguish ->
  RuleModifiers r = noModifiers ->
  applicable user qName qType clientIP gid r = (GroupID r =? gid).
Proof.
  intros Ht Hm. unfold applicable, checkModifiers, checkClient, checkDNSType,
    checkDenyAllow.
  rewrite Ht, Hm. simpl. now destruct (GroupID r =? gid).
Qed.

Lemma resolveGroups_single (st : list Rule) (user : option User.t) qName qType
    clientIP l (gids : list Z) :
  Type_ (rule st l) = RuleTypeDistinguish ->
  IsWhitelist (rule st l) = false ->
  RuleModifiers (rule st l) = noModifiers ->
  GroupID (rule st l) ∈ gids ->
  resolveGroups st user qName qType clientIP [l] gids
  = ResolveResult.mk true "Blocked" (Some l) user "".
Proof.
  intros Ht Hw Hm. induction gids as [|g gids IH]; intros Hin.
  - now apply elem_of_nil in Hin.
  - cbn [resolveGroups scanGroup fold_left].
    rewrite applicable_plain by assumption.
    destruct (Z.eqb_spec (GroupID (rule st l)) g) as [Heq|Hne].
    + unfold place, decideGroup. rewrite Hw, Hm. cbn. rewrite Hm. reflexivity.
    + rewrite decideGroup_noSlots. apply IH.
      apply elem_of_cons in Hin as [Heq|Hin]; [congruence | assumption].
Qed.

Lemma SearchTrace_single (st : list Rule) l qName :
  SearchTrace (Insert st NewDomainTrie l) qName
  = if decide (covers (Pattern (rule st l)) (TrimSuffix qName ".")) then [l] else [].
Proof.
  unfold SearchTrace, Insert, NewDomainTrie.
  rewrite searchPath_insertPath.
  - do 2 case_decide; try reflexivity.
    + exfalso. rewrite covers_spec, suffix_prefix_rev in *. tauto.
    + exfalso. rewrite covers_spec, suffix_prefix_rev in *. tauto.
  - intros Hnil. apply (f_equal (@rev string)) in Hnil.
    rewrite rev_involutive in Hnil. now apply Split_nonempty in Hnil.
Qed.

(** C2. An index that holds a single rule, at the location [l]: a
    Subdomain rule with pattern [P], no modifiers, in an active group.  The
    trie walk returns the rule when the query name, trailing dot stripped,
    is [P] or ends with ["." + P], and nothing for any other name;
    [Resolve] reports blocked exactly for the names of the first kind, with
    that rule as the deciding rule.  (No condition on [P]: a wildcard in
    [P] would be one more byte of a label.) *)
Theorem subdomain_rule_coverage e now qName qType clientIP clientMAC l :
  let r := rule (store e) l in
  let q := TrimSuffix qName "." in
  let res := Resolve e now qName qType clientIP clientMAC in
  trie e = Insert (store e) NewDomainTrie l ->
  regexRules e = [] ->
  Type_ r = RuleTypeDistinguish ->
  IsWhitelist r = false ->
  RuleModifiers r = noModifiers ->
  GroupID r ∈ getActiveGroupIDs e (userGroupNameOf e (GetUser e clientIP clientMAC)) now ->
  (ResolveResult.Blocked res = true <-> covers (Pattern r) q)
  /\ (covers (Pattern r) q ->
      SearchTrace (trie e) qName = [l] /\ ResolveResult.Rule res = Some l)
  /\ (~ covers (Pattern r) q -> SearchTrace (trie e) qName = []).
Proof.
  cbv zeta. intros Htrie Hre Ht Hw Hm Hact.
  rewrite Resolve_active by (intros Hnil; rewrite Hnil in Hact; now apply elem_of_nil in Hact).
  unfold allMatches. rewrite Hre, Htrie, SearchTrace_single. simpl.
  rewrite app_nil_r.
  case_decide as Hc.
  - rewrite resolveGroups_single by assumption. simpl.
    split_and!; [tauto | tauto | intros Hn; now destruct Hn].
  - rewrite resolveGroups_nil. simpl.
    split_and!; [split; [discriminate | tauto] | tauto | reflexivity].
Qed.

End ResolveTheorems.

(** ** Schedules and the active groups *)

Section ScheduleTheorems.
Context `{GoLib}.

Lemma existsb_eqb_elem (g : Z) (acc : list Z) : existsb (Z.eqb g) acc = true <-> g ∈ acc.
Proof.
  rewrite existsb_exists. split.
  - intros (x & Hx & Heq). apply Z.eqb_eq in Heq. subst. now apply list_elem_of_In.
  - intros Hg. exists g. split; [now apply list_elem_of_In | apply Z.eqb_refl].
Qed.

Lemma elem_of_addPolicy (e : Engine) (now : Time) (acc : list Z) (p : Policy.t) (g : Z) :
  g ∈ addPolicy e now acc p <->
  g ∈ acc \/ (g <> 0 /\ groupID e (Policy.RuleGroup p) = g
              /\ IsActive (scheduleMatcher e) (Policy.Schedule p) now = false).
Proof.
  unfold addPolicy.
  destruct (IsActive _ _ _); simpl; [intuition congruence|].
  destruct (Z.eqb_spec (groupID e (Policy.RuleGroup p)) 0) as [Hz|Hz]; simpl.
  - intuition congruence.
  - destruct (existsb _ acc) eqn:Hex; simpl.
    + apply existsb_eqb_elem in Hex. split; [tauto|].
      intros [Hg|(_ & <- & _)]; assumption.
    + rewrite elem_of_app, list_elem_of_singleton. split.
      * intros [Hg| ->]; [now left | right; now repeat split].
      * intros [Hg|(_ & <- & _)]; [now left | now right].
Qed.

Lemma elem_of_fold_addPolicy (e : Engine) (now : Time) (ps : list Policy.t)
    (acc : list Z) (g : Z) :
  g ∈ fold_left (addPolicy e now) ps acc <->
  g ∈ acc \/ (g <> 0 /\ exists p, p ∈ ps /\ groupID e (Policy.RuleGroup p) = g
              /\ IsActive (scheduleMatcher e) (Policy.Schedule p) now = false).
Proof.
  revert acc. induction ps as [|p ps IH]; intros acc; simpl.
  - split; [tauto|]. intros [Hg|(_ & p & Hp & _)]; [assumption|].
    now apply elem_of_nil in Hp.
  - rewrite IH, elem_of_addPolicy. split.
    + intros [[Hg|(Hz & Hg & Ha)]|(Hz & q & Hq & Hg & Ha)].
      * now left.
      * right. split; [assumption|]. exists p. split; [apply list_elem_of_here | tauto].
      * right. split; [assumption|]. exists q.
        split; [now apply list_elem_of_further | tauto].
    + intros [Hg|(Hz & q & Hq & Hg & Ha)]; [tauto|].
      apply elem_of_cons in Hq as [->|Hq]; [tauto|].
      right. split; [assumption|]. exists q. tauto.
Qed.

(** C6. [IsActive] holds exactly for a named, configured schedule one of
    whose ranges for the weekday of the instant contains the minute
    [m = hour * 60 + minute], both ends included; it is false for the
    empty name, for a name that is not configured and for a weekday
    without ranges.  A policy whose schedule [IsActive] is suppressed: the
    loop of [getActiveGroupIDs] leaves the list as it is; a policy whose
    schedule is not, and whose rule group is configured, has its id in the
    list.  So the active list holds exactly the ids of the configured rule
    groups named by a policy that is not suppressed. *)
Theorem schedule_suppresses_policy (e : Engine) (now : Time) :
  let sm := scheduleMatcher e in
  let m := Hour now * 60 + Minute now in
  (forall name,
      IsActive sm name now = true <->
      name <> "" /\ exists sch r,
          schedules sm !! name = Some sch
          /\ r ∈ default [] (WeekMap sch !! Weekday now)
          /\ Start r <= m <= End_ r)
  /\ IsActive sm "" now = false
  /\ (forall name, schedules sm !! name = None -> IsActive sm name now = false)
  /\ (forall name sch,
        schedules sm !! name = Some sch ->
        default [] (WeekMap sch !! Weekday now) = [] ->
        IsActive sm name now = false)
  /\ (forall acc p,
        IsActive sm (Policy.Schedule p) now = true -> addPolicy e now acc p = acc)
  /\ (forall acc p,
        IsActive sm (Policy.Schedule p) now = false ->
        groupID e (Policy.RuleGroup p) <> 0 ->
        groupID e (Policy.RuleGroup p) ∈ addPolicy e now acc p)
  /\ (forall name ug gid,
        List.find (fun ug => String.eqb (UserGroup.Name ug) name)
                  (Config.UserGroups (cfg e)) = Some ug ->
        gid ∈ getActiveGroupIDs e name now <->
        gid <> 0 /\ exists p, p ∈ UserGroup.Policies ug
                              /\ groupID e (Policy.RuleGroup p) = gid
                              /\ IsActive sm (Policy.Schedule p) now = false).
Proof.
  cbv zeta. split_and!.
  - intros name. unfold IsActive.
    destruct (String.eqb_spec name "") as [->|Hne].
    { split; [discriminate | intros [Hn _]; congruence]. }
    destruct (schedules (scheduleMatcher e) !! name) as [sch|] eqn:Hs.
    2: { split; [discriminate | intros (_ & sch & r & Hsch & _); discriminate]. }
    destruct (default [] (WeekMap sch !! Weekday now)) as [|r0 rs] eqn:Hr.
    { simpl. split; [discriminate|].
      intros (_ & sch' & r & Hsch & Hin & _). injection Hsch as <-.
      rewrite Hr in Hin. now apply elem_of_nil in Hin. }
    cbn [length Nat.eqb]. rewrite existsb_exists. split.
    + intros (r & Hin & Hr'). unfold inRange in Hr'.
      apply andb_true_iff in Hr' as [H1 H2].
      split; [assumption|]. exists sch, r. rewrite Hr.
      split_and!; [reflexivity | now apply list_elem_of_In | lia | lia].
    + intros (_ & sch' & r & Hsch & Hin & Hle). injection Hsch as <-.
      rewrite Hr in Hin. exists r. split; [now apply list_elem_of_In|].
      unfold inRange. apply andb_true_iff. split; lia.
  - reflexivity.
  - intros name Hs. unfold IsActive. rewrite Hs. now destruct (String.eqb name "").
  - intros name sch Hs Hr. unfold IsActive. rewrite Hs, Hr.
    now destruct (String.eqb name "").
  - intros acc p Ha. unfold addPolicy. now rewrite Ha.
  - intros acc p Ha Hz. apply elem_of_addPolicy. right. now repeat split.
  - intros name ug gid Hf. unfold getActiveGroupIDs. rewrite Hf.
    rewrite elem_of_fold_addPolicy. split; [|tauto].
    intros [Hg|Hg]; [now apply elem_of_nil in Hg | assumption].
Qed.

End ScheduleTheorems.

(** ** The [$client] modifier *)

Section ClientTheorems.
Context `{GoLib} `{!NetipFacts}.

Lemma clientIsMatch_tokenMatches (user : option User.t) (clientIP : Addr)
    (target : string) :
  clientIsMatch user clientIP target = tokenMatches user clientIP target.
Proof.
  unfold clientIsMatch, tokenMatches.
  destruct (match user with
            | Some u => String.eqb target (User.Name u)
            | None => false
            end); [reflexivity|].
  cbn [orb].
  destruct (ParseAddr target) as [ip|] eqn:Ha.
  - rewrite (addr_not_prefix _ _ Ha). cbn [orb]. rewrite orb_false_r.
    destruct (String.eqb_spec target (AddrString clientIP)) as [->|_];
      [|now rewrite orb_false_r].
    apply addr_string_parse in Ha. subst ip.
    now rewrite bool_decide_eq_true_2.
  - cbn [orb]. destruct (ParsePrefix target) as [prefix|] eqn:Hp; [|reflexivity].
    destruct (String.eqb_spec target (AddrString clientIP)) as [->|_];
      [|now rewrite orb_false_r].
    rewrite addr_string_not_prefix in Hp. discriminate.
Qed.

Lemma existsb_map {A B : Type} (f : A -> B) (g : B -> bool) (xs : list A) :
  existsb g (map f xs) = existsb (fun x => g (f x)) xs.
Proof. induction xs as [|x xs IH]; simpl; [reflexivity | now rewrite IH]. Qed.

Lemma checkClient_clientRule (m : Modifiers) (user : option User.t) (clientIP : Addr) :
  Client m <> [] ->
  checkClient m user clientIP = clientRule user clientIP (clientTokens m).
Proof.
  intros Hne. unfold checkClient, clientRule, clientTokens, isExclusionMode, anyTarget.
  destruct (Client m) as [|v vs] eqn:Hc; [congruence|].
  cbn [length Nat.ltb Nat.leb].
  rewrite existsb_map.
  replace (hd "" (map TrimSpace (flattenValues (v :: vs))))
    with (TrimSpace (hd "" (flattenValues (v :: vs))))
    by (now destruct (flattenValues (v :: vs))).
  assert (existsb (fun p => clientIsMatch user clientIP (TrimPrefix (TrimSpace p) "~"))
                  (flattenValues (v :: vs))
          = existsb (fun x => tokenMatches user clientIP (TrimPrefix (TrimSpace x) "~"))
                    (flattenValues (v :: vs))) as ->.
  { induction (flattenValues (v :: vs)) as [|t ts IH]; [reflexivity|].
    simpl. now rewrite clientIsMatch_tokenMatches, IH. }
  destruct (flattenValues (v :: vs)) as [|t ts]; reflexivity.
Qed.

(** C8 (as the code has it). For a rule with a [$client] modifier, the
    tokens being the values split on ['|'] and each trimmed of white
    space: the client test of [checkModifiers] is exclusion when the
    first token begins with ['~'] and inclusion otherwise; in inclusion
    mode it passes when some token matches the client, in exclusion mode
    when none does, a leading ['~'] being stripped from every token
    before the match; a token matches when it is the user's name, or an
    address equal to the client's, or a prefix containing it, or the
    client address in text.  A rule that fails the client test does not
    apply, and a rule with no other modifier applies exactly when it
    passes. *)
Theorem client_modifier_rule (r : Rule) (user : option User.t) (qType : Z)
    (clientIP : Addr) (qName : string) :
  Client (RuleModifiers r) <> [] ->
  let m := RuleModifiers r in
  let passes := clientRule user clientIP (clientTokens m) in
  checkClient m user clientIP = passes
  /\ (passes = false -> checkModifiers r user qType clientIP qName = false)
  /\ (BadFilter m = false -> DNSType m = [] -> DenyAllow m = [] ->
      checkModifiers r user qType clientIP qName = passes).
Proof.
  intros Hne. cbv zeta.
  pose proof (checkClient_clientRule _ user clientIP Hne) as Hc.
  split_and!.
  - exact Hc.
  - intros Hp. unfold checkModifiers. rewrite Hc, Hp. simpl.
    now destruct (BadFilter _).
  - intros Hb Hd Ha. unfold checkModifiers, checkDNSType, checkDenyAllow.
    rewrite Hb, Hd, Ha, Hc. simpl.
    now destruct (clientRule _ _ _).
Qed.

End ClientTheorems.

(** ** The rule-line parser *)

Section ParserTheorems.
Context `{GoLib}.

Lemma parseModifiers_Ok (raw : string) (m : Modifiers) :
  exists m', parseModifiers raw m = Ok m'.
Proof. unfold parseModifiers. eauto. Qed.

Lemma splitRule_Ok (text : string) :
  exists w m body, splitRule text = Ok (w, m, body).
Proof.
  unfold splitRule, parseModifiers.
  destruct (negb (LastIndex _ _ =? -1)); eauto.
Qed.

Lemma classify_no_error (text : string) (m : Modifiers) (msg : string) :
  classify text m <> Err msg.
Proof.
  unfold classify.
  repeat match goal with
         | |- context [if ?b then _ else _] => destruct b
         | |- context [match ?x with _ => _ end] => destruct x
         end; discriminate.
Qed.

Lemma ParseRule_no_error (line : string) (msg : string) : ParseRule line <> Err msg.
Proof.
  unfold ParseRule. destruct (isBlank _); [discriminate|].
  destruct (splitRule_Ok (TrimSpace line)) as (w & m & body & ->).
  cbn [mbind outcome_bind bind].
  pose proof (classify_no_error body m) as Hc.
  destruct (classify body m) as [[[[ty pattern] ip] m']|msg'|]; cbn [mbind outcome_bind bind].
  - cbv zeta.
    match goal with
    | |- context [convertWildcard ?a ?b] => destruct (convertWildcard a b)
    end.
    discriminate.
  - now destruct (Hc msg').
  - discriminate.
Qed.

(** A line that starts with ['!'] or ['#'] still does once trimmed. *)
Lemma TrimSpace_comment (line : string) :
  HasPrefix line "!" = true \/ HasPrefix line "#" = true ->
  isBlank (TrimSpace line) = true.
Proof.
  intros Hp. unfold isBlank, TrimSpace.
  destruct line as [|c t]; [reflexivity|].
  destruct Hp as [Hp|Hp]; apply HasPrefix_spec in Hp as [x Hx];
    simpl in Hx; injection Hx as -> ->; rename x into t.
  - replace (trimLeftFrom 0 (String "!" t)) with (String "!" t)
      by (destruct t as [|c1 [|c2 t2]]; reflexivity).
    replace (trimRight (String "!" t)) with (String "!" (trimRight t))
      by (destruct t as [|c1 [|c2 t2]]; reflexivity).
    reflexivity.
  - replace (trimLeftFrom 0 (String "#" t)) with (String "#" t)
      by (destruct t as [|c1 [|c2 t2]]; reflexivity).
    replace (trimRight (String "#" t)) with (String "#" (trimRight t))
      by (destruct t as [|c1 [|c2 t2]]; reflexivity).
    reflexivity.
Qed.

(** C10 (as the code has it). [ParseRule] returns no rule and no error
    exactly for a line that trims to the empty string or, once trimmed,
    begins with ['!'] or ['#'] (so for every line that begins with one of
    them); and it never returns an error: [parseModifiers] accepts every
    modifier segment. *)
Theorem ParseRule_blank_and_no_error (line : string) :
  (ParseRule line = Ok None <-> isBlank (TrimSpace line) = true)
  /\ (TrimSpace line = "" -> ParseRule line = Ok None)
  /\ (HasPrefix line "!" = true \/ HasPrefix line "#" = true -> ParseRule line = Ok None)
  /\ (forall msg, ParseRule line <> Err msg)
  /\ (forall raw m, exists m', parseModifiers raw m = Ok m').
Proof.
  assert (isBlank (TrimSpace line) = true -> ParseRule line = Ok None) as Hb
    by (intros Hb; unfold ParseRule; now rewrite Hb).
  split_and!.
  - split; [|exact Hb]. unfold ParseRule.
    destruct (isBlank _); [reflexivity|].
    destruct (splitRule_Ok (TrimSpace line)) as (w & m & body & ->).
    cbn [mbind outcome_bind bind].
    destruct (classify body m) as [[[[ty pattern] ip] m']|msg'|]; cbn [mbind outcome_bind bind];
      try discriminate.
    cbv zeta.
    match goal with
    | |- context [convertWildcard ?a ?b] => destruct (convertWildcard a b)
    end.
    discriminate.
  - intros Ht. apply Hb. unfold isBlank. now rewrite Ht.
  - intros Hp. apply Hb. now apply TrimSpace_comment.
  - apply ParseRule_no_error.
  - apply parseModifiers_Ok.
Qed.

Lemma Fields_head (c : ascii) (t p0 : string) (fs : list string) :
  spaceLen (String c t) = 0%nat ->
  Fields (String c t) = p0 :: fs ->
  exists p, p0 = String c p.
Proof.
  unfold Fields. cbn [fieldsFrom]. intros ->.
  destruct (fieldsFrom 0 t) as [[] [|f fs']]; simpl; intros [= <- _]; eauto.
Qed.

Context `{!NetipFacts}.

Lemma hosts_body (body p0 : string) (fs : list string) (ip : Addr) :
  Fields body = p0 :: fs ->
  ParseAddr p0 = Some ip ->
  HasPrefix body "/" = false /\ HasPrefix body "||" = false.
Proof.
  intros Hf Hp. apply addr_literal_head in Hp as [Hs Hb].
  destruct body as [|c t]; [now split|].
  split.
  - cbn [HasPrefix]. destruct (Ascii.eqb_spec "/" c) as [<-|]; [|reflexivity].
    apply Fields_head in Hf as [p ->];
      [discriminate | destruct t as [|c1 [|c2 t2]]; reflexivity].
  - cbn [HasPrefix]. destruct (Ascii.eqb_spec "|" c) as [<-|]; [|reflexivity].
    apply Fields_head in Hf as [p ->];
      [discriminate | destruct t as [|c1 [|c2 t2]]; reflexivity].
Qed.

(** C9 (as the code has it). A rule line whose body has at least two
    white-space-separated fields, the first a parseable address: the
    pattern is the second field less a trailing ['^']; the rule is of kind
    Exact unless that pattern has a ['*'], in which case it is the Regex
    rule ["^...$"] of step 4; the address is recorded; and the dns_rewrite
    modifier is the textual form of the address when the address is
    neither loopback nor unspecified, and otherwise what the modifier
    segment gave. *)
Theorem hosts_line_rule (line body p0 p1 : string) (rest : list string)
    (w : bool) (m : Modifiers) (ip : Addr) :
  isBlank (TrimSpace line) = false ->
  splitRule (TrimSpace line) = Ok (w, m, body) ->
  Fields body = p0 :: p1 :: rest ->
  ParseAddr p0 = Some ip ->
  let pattern := TrimSuffix p1 "^" in
  let rewrites := negb (IsLoopback ip) && negb (IsUnspecified ip) in
  exists r,
    ParseRule line = Ok (Some r)
    /\ (Type_ r, Pattern r) = convertWildcard RuleTypeExact pattern
    /\ (Contains pattern "*" = false -> Type_ r = RuleTypeExact /\ Pattern r = pattern)
    /\ (Contains pattern "*" = true -> Type_ r = RuleTypeRegex)
    /\ IP r = ip
    /\ IsWhitelist r = w
    /\ DNSRewrite (RuleModifiers r)
       = (if rewrites then AddrString ip else DNSRewrite m)
    /\ (rewrites = true ->
        RuleModifiers r = mkModifiers (Client m) (DenyAllow m) (DNSType m)
                            (AddrString ip) (Important m) (BadFilter m)
                            (ContentType m))
    /\ (rewrites = false -> RuleModifiers r = m).
Proof.
  intros Hb Hs Hf Hp. cbv zeta.
  destruct (hosts_body _ _ _ _ Hf Hp) as [H1 H2].
  unfold ParseRule. rewrite Hb, Hs. cbn [mbind outcome_bind bind].
  unfold classify. rewrite H1, H2, Hf, Hp. cbn [andb mbind outcome_bind bind].
  destruct (convertWildcard RuleTypeExact (TrimSuffix p1 "^")) as [ty pat] eqn:Hcw.
  eexists. split; [reflexivity|]. cbn [Type_ Pattern IP IsWhitelist RuleModifiers].
  unfold convertWildcard in Hcw. cbn [bool_decide decide_rel negb andb] in Hcw.
  assert (bool_decide (RuleTypeExact = RuleTypeRegex) = false) as Hbd by reflexivity.
  assert (bool_decide (RuleTypeExact = RuleTypeDistinguish) = false) as Hbd' by reflexivity.
  rewrite Hbd, Hbd' in Hcw. cbn [negb andb] in Hcw.
  split_and!; try reflexivity.
  - intros Hc. rewrite Hc in Hcw. now injection Hcw as <- <-.
  - intros Hc. rewrite Hc in Hcw. now injection Hcw as <- _.
  - now destruct (negb (IsLoopback ip) && negb (IsUnspecified ip)).
  - now intros ->.
  - now intros ->.
Qed.

End ParserTheorems.

(** ** The IPv4 implementation has the properties assumed of [net/netip] *)

Section IPv4Facts.

Lemma Contains_append (a b : string) (c : ascii) :
  Contains (a +:+ b) c = Contains a c || Contains b c.
Proof.
  induction a as [|x a IH]; simpl; [reflexivity|].
  rewrite IH. now rewrite orb_assoc.
Qed.

Lemma LastIndex_absent (s : string) (c : ascii) :
  Contains s c = false -> LastIndex s c = -1.
Proof.
  induction s as [|x s IH]; simpl; [reflexivity|].
  intros Hc. apply orb_false_iff in Hc as [Hx Hs].
  rewrite (IH Hs), Hx. reflexivity.
Qed.

Lemma Split_free (p : string) (sep : ascii) :
  Contains p sep = false -> Split p sep = [p].
Proof.
  induction p as [|x p IH]; simpl; [reflexivity|].
  intros Hc. apply orb_false_iff in Hc as [Hx Hp].
  rewrite Hx, (IH Hp). reflexivity.
Qed.

Lemma Split_cons_free (p rest : string) (sep : ascii) :
  Contains p sep = false ->
  Split (p +:+ String sep rest) sep = p :: Split rest sep.
Proof. intros Hp. now rewrite Split_append, Split_free. Qed.

Lemma Contains_Split (s : string) (c sep : ascii) :
  c <> sep ->
  Contains s c = existsb (fun p => Contains p c) (Split s sep).
Proof.
  intros Hne. induction s as [|x s IH]; [reflexivity|].
  cbn [Contains Split].
  destruct (Ascii.eqb_spec x sep) as [->|Hx].
  - cbn [existsb Contains orb].
    destruct (Ascii.eqb_spec sep c); [congruence | exact IH].
  - pose proof (Split_nonempty s sep).
    destruct (Split s sep) as [|p ps]; [congruence|].
    cbn [existsb Contains] in *. rewrite IH. now rewrite orb_assoc.
Qed.

Lemma Split_head (s : string) (sep c : ascii) (p : string) (ps : list string) :
  Split s sep = String c p :: ps -> exists t, s = String c t.
Proof.
  intros Hs. rewrite <- (Join_Split s sep), Hs.
  destruct ps; simpl; eauto.
Qed.

Lemma allDigits_free (p : string) (c : ascii) :
  isDigit c = false -> IPv4.allDigits p = true -> Contains p c = false.
Proof.
  intros Hc. induction p as [|x p IH]; simpl; [reflexivity|].
  intros Hd. apply andb_true_iff in Hd as [Hx Hp].
  rewrite (IH Hp), orb_false_r.
  destruct (Ascii.eqb_spec x c); [congruence | reflexivity].
Qed.

Lemma parseOctet_digits (p : string) (v : N) :
  IPv4.parseOctet p = Some v ->
  IPv4.allDigits p = true /\ exists c t, p = String c t /\ isDigit c = true.
Proof.
  unfold IPv4.parseOctet. destruct p as [|c t]; [discriminate|].
  destruct (IPv4.allDigits (String c t)) eqn:Hd; [|discriminate].
  intros _. split; [reflexivity|]. exists c, t. split; [reflexivity|].
  simpl in Hd. now apply andb_true_iff in Hd.
Qed.

Lemma ParseAddr_parts (s : string) (a : option N) :
  IPv4.ParseAddr s = Some a ->
  exists p1 p2 p3 p4 v1 v2 v3 v4,
    Split s "." = [p1; p2; p3; p4]
    /\ IPv4.parseOctet p1 = Some v1 /\ IPv4.parseOctet p2 = Some v2
    /\ IPv4.parseOctet p3 = Some v3 /\ IPv4.parseOctet p4 = Some v4.
Proof.
  unfold IPv4.ParseAddr.
  destruct (Split s ".") as [|p1 [|p2 [|p3 [|p4 [|p5 ps]]]]]; try discriminate.
  destruct (IPv4.parseOctet p1) as [v1|] eqn:H1; [|discriminate].
  destruct (IPv4.parseOctet p2) as [v2|] eqn:H2; [|discriminate].
  destruct (IPv4.parseOctet p3) as [v3|] eqn:H3; [|discriminate].
  destruct (IPv4.parseOctet p4) as [v4|] eqn:H4; [|discriminate].
  intros _. exists p1, p2, p3, p4, v1, v2, v3, v4. now repeat split.
Qed.

Lemma ParseAddr_free (s : string) (a : option N) (c : ascii) :
  isDigit c = false -> c <> "."%char ->
  IPv4.ParseAddr s = Some a -> Contains s c = false.
Proof.
  intros Hc Hdot Hp.
  destruct (ParseAddr_parts _ _ Hp)
    as (p1 & p2 & p3 & p4 & v1 & v2 & v3 & v4 & Hs & H1 & H2 & H3 & H4).
  rewrite (Contains_Split s c "." Hdot), Hs. cbn [existsb].
  apply parseOctet_digits in H1 as [H1 _], H2 as [H2 _], H3 as [H3 _], H4 as [H4 _].
  now rewrite !allDigits_free.
Qed.

Lemma octets_ok (o : N) : (o < 256)%N -> IPv4.octetOk o = true.
Proof.
  intros Ho.
  assert (forallb IPv4.octetOk (map N.of_nat (seq 0 256)) = true) as Hall
    by (vm_compute; reflexivity).
  rewrite forallb_forall in Hall. apply Hall.
  apply in_map_iff. exists (N.to_nat o). split; [lia|].
  apply in_seq. lia.
Qed.

Lemma octet_parse (o : N) : (o < 256)%N -> IPv4.parseOctet (IPv4.decimal o) = Some o.
Proof.
  intros Ho. pose proof (octets_ok o Ho) as Hk. unfold IPv4.octetOk in Hk.
  apply andb_true_iff in Hk as [Hk _]. apply andb_true_iff in Hk as [Hk _].
  now apply bool_decide_eq_true in Hk.
Qed.

Lemma octet_free (o : N) :
  (o < 256)%N ->
  Contains (IPv4.decimal o) "." = false /\ Contains (IPv4.decimal o) "/" = false.
Proof.
  intros Ho. pose proof (octets_ok o Ho) as Hk. unfold IPv4.octetOk in Hk.
  apply andb_true_iff in Hk as [Hk H2]. apply andb_true_iff in Hk as [_ H1].
  split; now apply negb_true_iff.
Qed.

Lemma IPv4_AddrString_free (a : option N) : Contains (IPv4.AddrString a) "/" = false.
Proof.
  destruct a as [v|]; [|reflexivity]. unfold IPv4.AddrString.
  destruct (N.ltb_spec v 4294967296) as [Hv|_]; [|reflexivity].
  assert (v / 16777216 < 256)%N by (apply N.Div0.div_lt_upper_bound; lia).
  assert (v / 65536 mod 256 < 256)%N by (apply N.mod_lt; lia).
  assert (v / 256 mod 256 < 256)%N by (apply N.mod_lt; lia).
  assert (v mod 256 < 256)%N by (apply N.mod_lt; lia).
  rewrite !Contains_append.
  repeat match goal with
         | Ho : (?o < 256)%N |- _ =>
             rewrite (proj2 (octet_free o Ho)); clear Ho
         end.
  reflexivity.
Qed.

Lemma IPv4_AddrString_parse (v : N) :
  (v < 4294967296)%N ->
  IPv4.ParseAddr (IPv4.AddrString (Some v)) = Some (Some v).
Proof.
  intros Hv. unfold IPv4.AddrString.
  destruct (N.ltb_spec v 4294967296) as [_|]; [|lia].
  assert (v / 16777216 < 256)%N as H1 by (apply N.Div0.div_lt_upper_bound; lia).
  assert (v / 65536 mod 256 < 256)%N as H2 by (apply N.mod_lt; lia).
  assert (v / 256 mod 256 < 256)%N as H3 by (apply N.mod_lt; lia).
  assert (v mod 256 < 256)%N as H4 by (apply N.mod_lt; lia).
  unfold IPv4.ParseAddr.
  repeat change ("." +:+ ?x) with (String "." x).
  rewrite (Split_cons_free _ _ _ (proj1 (octet_free _ H1))).
  rewrite (Split_cons_free _ _ _ (proj1 (octet_free _ H2))).
  rewrite (Split_cons_free _ _ _ (proj1 (octet_free _ H3))).
  rewrite (Split_free _ _ (proj1 (octet_free _ H4))).
  rewrite !octet_parse by assumption.
  do 2 f_equal.
  clear H1 H2 H3 H4. zify. Z.to_euclidean_division_equations. lia.
Qed.

#[global] Instance IPv4_facts : @NetipFacts IPv4.lib.
Proof.
  split.
  - intros s a Hp. cbn in *. unfold IPv4.ParsePrefix.
    rewrite (LastIndex_absent s "/"); [reflexivity|].
    now apply (ParseAddr_free s a).
  - intros [v|] b Hp.
    + change (IPv4.ParseAddr (IPv4.AddrString (Some v)) = Some b) in Hp.
      destruct (N.ltb_spec v 4294967296) as [Hv|Hv].
      * rewrite IPv4_AddrString_parse in Hp by assumption. congruence.
      * unfold IPv4.AddrString in Hp.
        destruct (N.ltb_spec v 4294967296); [lia | discriminate].
    + discriminate.
  - intros a. cbn. unfold IPv4.ParsePrefix.
    now rewrite (LastIndex_absent _ _ (IPv4_AddrString_free a)).
  - intros s a Hp. cbn in Hp.
    destruct (ParseAddr_parts _ _ Hp)
      as (p1 & p2 & p3 & p4 & v1 & v2 & v3 & v4 & Hs & H1 & _).
    apply parseOctet_digits in H1 as (_ & c & t & -> & Hc).
    apply Split_head in Hs as [t' ->].
    cbn [HasPrefix].
    split.
    + destruct (Ascii.eqb_spec "/" c) as [<-|]; [discriminate | reflexivity].
    + destruct (Ascii.eqb_spec "|" c) as [<-|]; [discriminate | reflexivity].
Qed.

End IPv4Facts.


(** ** Reloads *)

Section ReloadFacts.
Context `{GoLib}.

Lemma insertRule_keeps_index (gid : Z) (s : Reloading) (r : loc) :
  trie (eng (insertRule gid s r)) = trie (eng s)
  /\ regexRules (eng (insertRule gid s r)) = regexRules (eng s).
Proof.
  unfold insertRule.
  destruct (Type_ _); try destruct (Compile _); now split.
Qed.

Lemma fold_insertRule_keeps_index (gid : Z) (ls : list loc) (s : Reloading) :
  trie (eng (fold_left (insertRule gid) ls s)) = trie (eng s)
  /\ regexRules (eng (fold_left (insertRule gid) ls s)) = regexRules (eng s).
Proof.
  revert s. induction ls as [|r ls IH]; intros s; [now split|].
  cbn [fold_left]. destruct (IH (insertRule gid s r)) as [-> ->].
  apply insertRule_keeps_index.
Qed.

Ltac fold_keeps_tac :=
  match goal with
  | |- context [fold_left (insertRule ?gid) ?ls ?s0] =>
      destruct (fold_insertRule_keeps_index gid ls s0) as [-> ->]; now split
  end.

(** A goroutine of the reload leaves the trie and the regex bucket that
    the queries read as they were. *)
Lemma runSource_keeps_index (l : Loader) (s s' : Reloading) (task : Source.t * Z) :
  runSource l s task = Ok s' ->
  trie (eng s') = trie (eng s) /\ regexRules (eng s') = regexRules (eng s).
Proof.
  destruct task as [src gid]. unfold runSource.
  destruct (negb (String.eqb (Source.Path src) "")).
  - destruct (fileRuleCache (eng s) !! Source.Path src) as [cached|].
    + cbn. intros [= <-]. fold_keeps_tac.
    + destruct (LoadFromPath l (Source.Path src)) as [rs|msg|]; cbn;
        [|intros [= <-]; now split|discriminate].
      intros [= <-]. fold_keeps_tac.
  - destruct (negb (String.eqb (Source.URL src) "")).
    + destruct (LoadFromURLWithCache l (Source.URL src)) as [rs|msg|]; cbn;
        [|intros [= <-]; now split|discriminate].
      intros [= <-]. fold_keeps_tac.
    + cbn. intros [= <-]. now split.
Qed.

Lemma reloadSteps_keep_index (l : Loader) (x y : Reloading * list (Source.t * Z)) :
  reloadSteps l x y ->
  trie (eng (fst y)) = trie (eng (fst x))
  /\ regexRules (eng (fst y)) = regexRules (eng (fst x)).
Proof.
  induction 1 as [x|x y z Hstep _ [IH1 IH2]]; [now split|].
  destruct Hstep as [s s' before task after Hrun]. cbn [fst] in *.
  destruct (runSource_keeps_index _ _ _ _ Hrun) as [H1 H2].
  split; congruence.
Qed.

End ReloadFacts.

(** ** The program on concrete configurations *)

Section Examples.

#[local] Existing Instance IPv4.lib.

(** The scenarios of the specification. *)
Example anchor_blocks :
  ask (adsEngine ["||doubleclick.net^"]) "ads.doubleclick.net"
  = ResolveResult.mk true "Blocked" (Some 0%nat) None "".
Proof. vm_compute. reflexivity. Qed.

Example whitelist_allows :
  ResolveResult.Blocked
    (ask (adsEngine ["||doubleclick.net^"; "@@||safe.doubleclick.net^"])
         "safe.doubleclick.net") = false.
Proof. vm_compute. reflexivity. Qed.

Example hosts_rewrite :
  ask (adsEngine ["1.2.3.4 redir.example"]) "redir.example"
  = ResolveResult.mk true "Rewrite" (Some 0%nat) None "1.2.3.4".
Proof. vm_compute. reflexivity. Qed.

Example evening_schedule :
  let e := started eveningConfig (fileLoader ["||ads.example^"]) in
  ResolveResult.Blocked (Resolve e (monday 20 0) "ads.example" typeA (client 10 0 0 5) "")
  = false
  /\ ResolveResult.Blocked
       (Resolve e (monday 10 0) "ads.example" typeA (client 10 0 0 5) "") = true.
Proof. vm_compute. split; reflexivity. Qed.

Example client_prefix :
  let e := adsEngine ["||track.example^$client=10.0.0.0/24"] in
  ResolveResult.Blocked
    (Resolve e (monday 10 0) "track.example" typeA (client 10 0 0 5) "") = true
  /\ ResolveResult.Blocked
       (Resolve e (monday 10 0) "track.example" typeA (client 192 168 1 5) "") = false.
Proof. vm_compute. split; reflexivity. Qed.

Example dnstype_only :
  let e := adsEngine ["||v6only.example^$dnstype=AAAA"] in
  ResolveResult.Blocked
    (Resolve e (monday 10 0) "v6only.example" typeA (client 10 0 0 5) "") = false
  /\ ResolveResult.Blocked
       (Resolve e (monday 10 0) "v6only.example" typeAAAA (client 10 0 0 5) "") = true.
Proof. vm_compute. split; reflexivity. Qed.

(** C1, on the rules [||ads.example^] and [@@||ads.example^$important] of one
    group: the important whitelist rule decides. *)
Lemma resolve_four_tier_priority_witness :
  ResolveResult.Blocked
    (ask (adsEngine ["||ads.example^"; "@@||ads.example^$important"]) "ads.example")
  = false.
Proof.
  destruct (resolve_four_tier_priority
              (adsEngine ["||ads.example^"; "@@||ads.example^$important"])
              (monday 10 0) "ads.example" typeA (client 192 168 1 5) "" [] [] 1)
    as (w & i & l & _ & _ & _ & Hb & Htt & _).
  - vm_compute. reflexivity.
  - intros g l Hg. now apply elem_of_nil in Hg.
  - exists 1%nat. split; [|vm_compute; reflexivity].
    apply list_elem_of_In. vm_compute. tauto.
  - unfold ask. rewrite Hb.
    destruct Htt as [-> _]; [|reflexivity].
    exists 1%nat. split; [|vm_compute; reflexivity].
    apply list_elem_of_In. vm_compute. tauto.
Defined.

(** C2, on the rule [||doubleclick.net^]. *)
Lemma subdomain_rule_coverage_witness :
  let e := adsEngine ["||doubleclick.net^"] in
  ResolveResult.Blocked (ask e "ads.doubleclick.net.") = true
  /\ SearchTrace (trie e) "doubleclick.net.evil.example" = [].
Proof.
  cbv zeta. split.
  - apply (subdomain_rule_coverage (adsEngine ["||doubleclick.net^"]) (monday 10 0)
             "ads.doubleclick.net." typeA (client 192 168 1 5) "" 0%nat).
    + vm_compute; reflexivity.
    + apply nil_length_inv. vm_compute; reflexivity.
    + vm_compute; reflexivity.
    + vm_compute; reflexivity.
    + vm_compute; reflexivity.
    + apply list_elem_of_In. vm_compute. tauto.
    + right. vm_compute. reflexivity.
  - apply (subdomain_rule_coverage (adsEngine ["||doubleclick.net^"]) (monday 10 0)
             "doubleclick.net.evil.example" typeA (client 192 168 1 5) "" 0%nat).
    + vm_compute; reflexivity.
    + apply nil_length_inv. vm_compute; reflexivity.
    + vm_compute; reflexivity.
    + vm_compute; reflexivity.
    + vm_compute; reflexivity.
    + apply list_elem_of_In. vm_compute. tauto.
    + intros [Hc|Hc]; vm_compute in Hc; discriminate.
Defined.

(** C3. A reload is in flight on a configuration whose two rule groups
    read the same file.  After the goroutine of the first group has run,
    the trie and the regex bucket that queries read are still those of the
    index in place before the reload, but the rule they hold now carries
    the id of the first group: a query that the index blocked before the
    reload, and blocks after it, is answered "not blocked". *)
Theorem reload_exposes_blended_index :
  exists mid rest final,
    reloadSteps sharedLoader (startReload sharedEngine, tasks sharedEngine) (mid, rest)
    /\ reloadSteps sharedLoader (mid, rest) (final, [])
    /\ trie (eng mid) = trie sharedEngine
    /\ regexRules (eng mid) = regexRules sharedEngine
    /\ ResolveResult.Blocked (ask sharedEngine "ads.example") = true
    /\ ResolveResult.Blocked (ask (eng mid) "ads.example") = false
    /\ ResolveResult.Blocked (ask (swap final) "ads.example") = true
    /\ GroupID (rule (store sharedEngine) 0%nat) = 2
    /\ GroupID (rule (store (eng mid)) 0%nat) = 1.
Proof.
  set (t1 := (Source.mk "local" "" "ads.txt", 1)).
  set (t2 := (Source.mk "local" "" "ads.txt", 2)).
  set (t3 := (Source.mk "remote" "https://lists.example/extra.txt" "", 2)).
  assert (tasks sharedEngine = [t1; t2; t3]) as Htasks by (vm_compute; reflexivity).
  assert (match runSource sharedLoader (startReload sharedEngine) t1 with
          | Ok m1 =>
              match runSource sharedLoader m1 t2 with
              | Ok m2 =>
                  match runSource sharedLoader m2 t3 with
                  | Ok m3 =>
                      negb (ResolveResult.Blocked (ask (eng m1) "ads.example"))
                      && ResolveResult.Blocked (ask (swap m3) "ads.example")
                      && (GroupID (rule (store (eng m1)) 0%nat) =? 1)
                  | _ => false
                  end
              | _ => false
              end
          | _ => false
          end = true) as Hall by (vm_compute; reflexivity).
  destruct (runSource sharedLoader (startReload sharedEngine) t1)
    as [m1| |] eqn:E1; try discriminate.
  destruct (runSource sharedLoader m1 t2) as [m2| |] eqn:E2; try discriminate.
  destruct (runSource sharedLoader m2 t3) as [m3| |] eqn:E3; try discriminate.
  apply andb_true_iff in Hall as [Hall Hgid].
  apply andb_true_iff in Hall as [Hmid Hfin].
  exists m1, [t2; t3], m3. rewrite Htasks. split_and!.
  - eapply reloadSteps_step; [|apply reloadSteps_refl].
    exact (reloadStep_run sharedLoader _ _ [] t1 [t2; t3] E1).
  - eapply reloadSteps_step;
      [exact (reloadStep_run sharedLoader _ _ [] t2 [t3] E2)|].
    eapply reloadSteps_step; [|apply reloadSteps_refl].
    exact (reloadStep_run sharedLoader _ _ [] t3 [] E3).
  - apply (runSource_keeps_index _ _ _ _ E1).
  - apply (runSource_keeps_index _ _ _ _ E1).
  - vm_compute. reflexivity.
  - now apply negb_true_iff.
  - exact Hfin.
  - vm_compute. reflexivity.
  - now apply Z.eqb_eq.
Qed.

(** C4: two block rules of one group apply to the query; the rule met
    first does not keep the slot. *)
Lemma first_seen_rule_is_replaced :
  let e := adsEngine ["||example.com^"; "||ads.example.com^$dnsrewrite=1.2.3.4"] in
  let q := "ads.example.com" in
  let ip := client 192 168 1 5 in
  let M := allMatches e q in
  let ok := eligible (store e) None q typeA ip 1 false false in
  M = [0; 1]%nat
  /\ List.filter ok M = [0; 1]%nat
  /\ slotOf false false (scanGroup (store e) None q typeA ip 1 M) = Some 1%nat
  /\ slotOf false false (scanGroup (store e) None q typeA ip 1 M)
     <> head (List.filter ok M)
  /\ ask e q = ResolveResult.mk true "Rewrite" (Some 1%nat) None "1.2.3.4".
Proof.
  cbv zeta. split_and!; try (vm_compute; reflexivity).
  vm_compute. discriminate.
Qed.

(** C5: the rule [||ads.example^$important,dnsrewrite=1.2.3.4] blocks with an
    empty rewrite destination; without [$important] the destination is
    that of the rule. *)
Theorem important_block_drops_rewrite :
  let e := adsEngine ["||ads.example^$important,dnsrewrite=1.2.3.4"] in
  let e' := adsEngine ["||ads.example^$dnsrewrite=1.2.3.4"] in
  DNSRewrite (RuleModifiers (rule (store e) 0%nat)) = "1.2.3.4"
  /\ Important (RuleModifiers (rule (store e) 0%nat)) = true
  /\ ask e "ads.example"
     = ResolveResult.mk true "Important Blocked" (Some 0%nat) None ""
  /\ ask e' "ads.example"
     = ResolveResult.mk true "Rewrite" (Some 0%nat) None "1.2.3.4".
Proof. cbv zeta. split_and!; vm_compute; reflexivity. Qed.

(** C6, on the schedule "evening" (Monday 18:00 to 23:00): on a Monday at
    20:00 the policy contributes nothing. *)
Lemma schedule_suppresses_policy_witness :
  let e := started eveningConfig (fileLoader ["||ads.example^"]) in
  IsActive (scheduleMatcher e) "evening" (monday 20 0) = true
  /\ addPolicy e (monday 20 0) [] (Policy.mk "ads" "evening") = []
  /\ 1 ∈ addPolicy e (monday 10 0) [] (Policy.mk "ads" "evening").
Proof.
  cbv zeta.
  pose proof (schedule_suppresses_policy
                (started eveningConfig (fileLoader ["||ads.example^"])) (monday 20 0))
    as (Hiff & _ & _ & _ & Hskip & _).
  pose proof (schedule_suppresses_policy
                (started eveningConfig (fileLoader ["||ads.example^"])) (monday 10 0))
    as (_ & _ & _ & _ & _ & Hadd & _).
  assert (IsActive (scheduleMatcher (started eveningConfig (fileLoader ["||ads.example^"])))
            "evening" (monday 20 0) = true) as Hact.
  { apply Hiff. split; [discriminate|].
    exists (mkSchedule "evening" {[1 := [mkTimeRange 1080 1380]]}), (mkTimeRange 1080 1380).
    split_and!.
    - vm_compute. reflexivity.
    - apply list_elem_of_In. vm_compute. tauto.
    - vm_compute. discriminate.
    - vm_compute. discriminate. }
  split_and!.
  - exact Hact.
  - apply Hskip. exact Hact.
  - apply (Hadd [] (Policy.mk "ads" "evening")).
    + vm_compute. reflexivity.
    + vm_compute. discriminate.
Defined.

(** C7, on the hosts line [0.0.0.0 tracker.example] and the query
    [sub.tracker.example]. *)
Lemma exact_rule_needs_equal_name_witness :
  let e := adsEngine ["0.0.0.0 tracker.example"] in
  applicable None "sub.tracker.example" typeA (client 192 168 1 5) 1
    (rule (store e) 0%nat) = false.
Proof.
  cbv zeta.
  destruct (exact_rule_needs_equal_name (adsEngine ["0.0.0.0 tracker.example"])
              (monday 10 0) "sub.tracker.example" typeA (client 192 168 1 5) "")
    as (_ & Hsub & _).
  apply (Hsub None 1 _ "sub").
  - vm_compute. reflexivity.
  - vm_compute. reflexivity.
Defined.

(** C8, on the rule [||track.example^$client=10.0.0.0/24] and a client in
    the prefix. *)
Lemma client_modifier_rule_witness :
  let e := adsEngine ["||track.example^$client=10.0.0.0/24"] in
  checkModifiers (rule (store e) 0%nat) None typeA (client 10 0 0 5) "track.example"
  = true.
Proof.
  cbv zeta.
  destruct (client_modifier_rule
              (rule (store (adsEngine ["||track.example^$client=10.0.0.0/24"])) 0%nat)
              None typeA (client 10 0 0 5) "track.example")
    as (_ & _ & Heq).
  - vm_compute. discriminate.
  - rewrite Heq by (vm_compute; reflexivity). vm_compute. reflexivity.
Defined.

(** C8: a token with a space before it.  Taken as it is split, the token
    matches nothing and the rule would not apply; the program trims it,
    and the rule applies to the client 10.0.0.5. *)
Lemma client_token_is_trimmed :
  let e := adsEngine ["||track.example^$client= 10.0.0.5"] in
  let m := RuleModifiers (rule (store e) 0%nat) in
  let ip := client 10 0 0 5 in
  flattenValues (Client m) = [" 10.0.0.5"]
  /\ clientRule None ip (flattenValues (Client m)) = false
  /\ checkClient m None ip = true
  /\ checkModifiers (rule (store e) 0%nat) None typeA ip "track.example" = true
  /\ ResolveResult.Blocked (Resolve e (monday 10 0) "track.example" typeA ip "") = true.
Proof. cbv zeta. split_and!; vm_compute; reflexivity. Qed.

(** C9, on the line [1.2.3.4 redir.example]. *)
Lemma hosts_line_rule_witness :
  match ParseRule "1.2.3.4 redir.example" with
  | Ok (Some r) =>
      Type_ r = RuleTypeExact /\ Pattern r = "redir.example"
      /\ DNSRewrite (RuleModifiers r) = "1.2.3.4"
  | _ => False
  end.
Proof.
  destruct (hosts_line_rule "1.2.3.4 redir.example" "1.2.3.4 redir.example"
              "1.2.3.4" "redir.example" [] false noModifiers (client 1 2 3 4))
    as (r & -> & _ & Hex & _ & _ & _ & Hrw & _).
  - vm_compute. reflexivity.
  - vm_compute. reflexivity.
  - vm_compute. reflexivity.
  - vm_compute. reflexivity.
  - destruct Hex as [-> ->]; [vm_compute; reflexivity|].
    rewrite Hrw. split_and!; vm_compute; reflexivity.
Defined.

(** C9: a hosts line whose second field has a wildcard is a Regex rule,
    and a trailing ['^'] of the second field is not part of the pattern. *)
Lemma hosts_line_is_not_always_exact :
  Fields "0.0.0.0 *.example.com" = ["0.0.0.0"; "*.example.com"]
  /\ ParseAddr "0.0.0.0" = Some (client 0 0 0 0)
  /\ match ParseRule "0.0.0.0 *.example.com" with
     | Ok (Some r) =>
         Type_ r = RuleTypeRegex /\ Pattern r = "^.*\.example\.com$"
         /\ Pattern r <> "*.example.com"
     | _ => False
     end
  /\ match ParseRule "0.0.0.0 ads.example^" with
     | Ok (Some r) => Type_ r = RuleTypeExact /\ Pattern r = "ads.example"
     | _ => False
     end.
Proof.
  split_and!; try (vm_compute; reflexivity).
  - vm_compute. split_and!; try reflexivity. discriminate.
  - vm_compute. split; reflexivity.
Qed.

(** C10, on a comment line. *)
Lemma ParseRule_blank_and_no_error_witness :
  ParseRule "! Title: ads" = Ok None /\ ParseRule "   " = Ok None.
Proof.
  split.
  - destruct (ParseRule_blank_and_no_error "! Title: ads") as (_ & _ & Hc & _).
    apply Hc. left. vm_compute. reflexivity.
  - destruct (ParseRule_blank_and_no_error "   ") as (_ & He & _).
    apply He. vm_compute. reflexivity.
Defined.

(** C10: a modifier segment with an empty key, an empty token and a
    [client] without value is accepted. *)
Lemma malformed_modifiers_are_accepted :
  Split "=x,,client" "," = ["=x"; ""; "client"]
  /\ hasEmptyKey "=x" = true
  /\ hasEmptyKey "" = true
  /\ match ParseRule "||ads.example^$=x,,client" with
     | Ok (Some r) =>
         Pattern r = "ads.example" /\ Type_ r = RuleTypeDistinguish
         /\ RuleModifiers r = mkModifiers [""] [] [] "" false false []
     | _ => False
     end.
Proof.
  split_and!; try (vm_compute; reflexivity).
  vm_compute. split_and!; reflexivity.
Qed.

End Examples.
